(** * projectboard-mcp: the stdio JSON-RPC adapter of a task board

    The program reads JSON-RPC requests from standard input, one a line,
    and answers each of them, for the tools of its registry by requests to a
    remote REST API.  This development embeds it layer by layer and proves
    the properties that its specification states:

    - [JSON], [Decode], [url], [bufio]: the parts of encoding/json, net/url
      and bufio that the program relies on;
    - [taskboard]: the client of the remote API ([request], [GetTask],
      [UpdateTask], [AddComment] and the other methods);
    - [mcp]: the dispatcher ([Handle], [handleToolsCall], [callTool]);
    - [main]: the transport loop.

    Conventions of the embedding:

    - a Go string is a string of bytes, a Go int is in [Z] (the program runs
      on 64 bit platforms), a slice or map that may be nil is an [option];
    - a pair of a value and an error is a [result]; an error is kept with
      what made it, and its message is [ErrorText];
    - the remote API is the field [http] of the client: the answer to a
      request, which may depend on all the requests made before; code that
      calls it threads the log of the requests ([IO]);
    - standard input is the string of its bytes with the error that ends it
      ([main.stdio]), of which [bufio.Scan] makes the lines that the loop
      gets ([main.main]); standard output is the list of the responses
      printed, each one line of [json.Marshal];
    - encoding/json is modelled in two steps as in Go, the syntax of the
      whole text first and the storing of the document after; a value is
      stored into what the variable holds, so that of a key that an object
      repeats the later value is stored over the earlier one;
    - the body of a request is the document that [json.Marshal] writes, with
      its strings coerced to valid UTF-8;
    - the texts of [json.MarshalIndent] and of the errors of
      [json.Unmarshal] are left open ([Texts]). *)

From Stdlib Require Import ZArith List String Ascii Bool Lia DecimalString.
From stdpp Require Import base option gmap strings.
Import ListNotations.

Local Open Scope string_scope.
Local Open Scope list_scope.
Set Warnings "-register-all".

(** ** Bytes and text *)

Definition byte_of (c : ascii) : Z := Z.of_N (N_of_ascii c).
Definition of_byte (z : Z) : ascii := ascii_of_N (Z.to_N (z mod 256)).

Definition contains_byte (c : ascii) (s : string) : bool :=
  existsb (Ascii.eqb c) (list_ascii_of_string s).

(** The double quote, and a way to write a text that has some: in [qq s]
    every apostrophe of [s] stands for a double quote. *)
Definition quote : ascii := "034"%char.

Definition qq (s : string) : string :=
  string_of_list_ascii
    (map (fun c => if Ascii.eqb c "'" then quote else c) (list_ascii_of_string s)).

(** [strconv.Itoa] / the verb %d. *)
Definition itoa (z : Z) : string := NilZero.string_of_int (Z.to_int z).

(** ** encoding/json: the text of a JSON document *)

Module JSON.

(** A number literal, kept exact: its value is [coefficient * 10 ^ exponent10].
    [integral] records that the literal has neither a fraction nor an
    exponent part, which is what [strconv.ParseInt] accepts. *)
Record number := Number { coefficient : Z; exponent10 : Z; integral : bool }.

Inductive json :=
| JNull
| JBool (b : bool)
| JNumber (n : number)
| JString (s : string)
| JArray (items : list json)
| JObject (members : list (string * json)).

Inductive token :=
| TLBrace | TRBrace | TLBracket | TRBracket | TColon | TComma
| TString (s : string)
| TNumber (n : number)
| TTrue | TFalse | TNull.

(** *** Character classes *)

Definition is_space (c : ascii) : bool :=
  match c with
  | " "%char | "009"%char | "010"%char | "013"%char => true
  | _ => false
  end.

Definition is_digit (c : ascii) : bool :=
  (48 <=? byte_of c)%Z && (byte_of c <=? 57)%Z.

Definition digit_val (c : ascii) : Z := (byte_of c - 48)%Z.

Definition hex_val (c : ascii) : option Z :=
  let b := byte_of c in
  if (48 <=? b)%Z && (b <=? 57)%Z then Some (b - 48)%Z
  else if (97 <=? b)%Z && (b <=? 102)%Z then Some (b - 87)%Z
  else if (65 <=? b)%Z && (b <=? 70)%Z then Some (b - 55)%Z
  else None.

Definition is_letter (c : ascii) : bool :=
  let b := byte_of c in
  ((97 <=? b)%Z && (b <=? 122)%Z) || ((65 <=? b)%Z && (b <=? 90)%Z).

(** Bytes that can continue a number or one of [true], [false], [null]. *)
Definition is_word (c : ascii) : bool :=
  is_digit c || is_letter c ||
  match c with "+"%char | "-"%char | "."%char => true | _ => false end.

(** *** Number literals: an optional minus sign; 0, or a non-zero digit and
    digits; optionally a point and digits; optionally e or E, a sign and
    digits. *)

Fixpoint span_digits (w : list ascii) : list ascii * list ascii :=
  match w with
  | c :: w' =>
      if is_digit c then let '(ds, rest) := span_digits w' in (c :: ds, rest)
      else ([], w)
  | [] => ([], [])
  end.

Definition digits_val (ds : list ascii) : Z :=
  fold_left (fun acc c => (10 * acc + digit_val c)%Z) ds 0%Z.

Definition int_part (w : list ascii) : option (list ascii * list ascii) :=
  match w with
  | "0"%char :: rest => Some (["0"%char], rest)
  | _ => match span_digits w with
         | ([], _) => None
         | r => Some r
         end
  end.

Definition frac_part (w : list ascii) : option (list ascii * list ascii) :=
  match w with
  | "."%char :: rest =>
      match span_digits rest with
      | ([], _) => None
      | r => Some r
      end
  | _ => Some ([], w)
  end.

(** The exponent, with a flag telling whether one was written. *)
Definition exp_digits (neg : bool) (w : list ascii) : option (Z * bool) :=
  match span_digits w with
  | ((_ :: _) as ds, []) =>
      Some (if neg then (- digits_val ds)%Z else digits_val ds, true)
  | _ => None
  end.

Definition exp_part (w : list ascii) : option (Z * bool) :=
  match w with
  | [] => Some (0%Z, false)
  | c :: rest =>
      if Ascii.eqb c "e" || Ascii.eqb c "E" then
        match rest with
        | "+"%char :: rest' => exp_digits false rest'
        | "-"%char :: rest' => exp_digits true rest'
        | _ => exp_digits false rest
        end
      else None
  end.

Definition parse_number (w : list ascii) : option number :=
  let '(neg, w1) := match w with
                    | "-"%char :: w' => (true, w')
                    | _ => (false, w)
                    end in
  '(ip, w2) ← int_part w1;
  '(fp, w3) ← frac_part w2;
  '(e, has_exp) ← exp_part w3;
  let m := digits_val (ip ++ fp) in
  Some {| coefficient := if neg then (- m)%Z else m;
          exponent10 := (e - Z.of_nat (length fp))%Z;
          integral := match fp with [] => negb has_exp | _ => false end |}.

Definition classify_word (w : list ascii) : option token :=
  let s := string_of_list_ascii w in
  if String.eqb s "true" then Some TTrue
  else if String.eqb s "false" then Some TFalse
  else if String.eqb s "null" then Some TNull
  else TNumber <$> parse_number w.

(** *** String literals *)

(** What a string literal contributes before decoding: a byte copied from
    the input, or a UTF-16 code unit written as a \u escape. *)
Inductive sitem := SByte (c : ascii) | SUnit (u : Z).

Definition utf8_encode (cp : Z) : list ascii :=
  if (cp <? 128)%Z then [of_byte cp]
  else if (cp <? 2048)%Z then
    [of_byte (192 + cp / 64); of_byte (128 + cp mod 64)]
  else if (cp <? 65536)%Z then
    [of_byte (224 + cp / 4096); of_byte (128 + (cp / 64) mod 64);
     of_byte (128 + cp mod 64)]
  else
    [of_byte (240 + cp / 262144); of_byte (128 + (cp / 4096) mod 64);
     of_byte (128 + (cp / 64) mod 64); of_byte (128 + cp mod 64)].

Definition is_high_surrogate (u : Z) : bool := (55296 <=? u)%Z && (u <? 56320)%Z.
Definition is_low_surrogate (u : Z) : bool := (56320 <=? u)%Z && (u <? 57344)%Z.

(** [utf8.DecodeRune] at a byte of 128 or more that is copied from the
    input: how many bytes follow it in a well-formed sequence, [None] when it
    starts none. *)
Definition raw_byte (items : list sitem) (n : nat) : option Z :=
  match nth_error items n with
  | Some (SByte c) => Some (byte_of c)
  | _ => None
  end.

Definition between (lo hi : Z) (b : option Z) : bool :=
  match b with
  | Some b => (lo <=? b)%Z && (b <=? hi)%Z
  | None => false
  end.

Definition sequence_tail (b0 : Z) (rest : list sitem) : option nat :=
  let b1 := raw_byte rest 0 in
  let b2 := raw_byte rest 1 in
  let b3 := raw_byte rest 2 in
  let two := between 128 191 b2 in
  let three := between 128 191 b2 && between 128 191 b3 in
  if between 194 223 (Some b0) then if between 128 191 b1 then Some 1%nat else None
  else if (b0 =? 224)%Z then if between 160 191 b1 && two then Some 2%nat else None
  else if between 225 236 (Some b0) || between 238 239 (Some b0) then
    if between 128 191 b1 && two then Some 2%nat else None
  else if (b0 =? 237)%Z then if between 128 159 b1 && two then Some 2%nat else None
  else if (b0 =? 240)%Z then if between 144 191 b1 && three then Some 3%nat else None
  else if between 241 243 (Some b0) then if between 128 191 b1 && three then Some 3%nat else None
  else if (b0 =? 244)%Z then if between 128 143 b1 && three then Some 3%nat else None
  else None.

(** [unquote]: a surrogate pair gives one code point, a lone surrogate and a
    byte that is no part of well-formed UTF-8 give U+FFFD.  [pending] counts
    the bytes that continue a sequence already found well-formed. *)
Fixpoint unquote (pending : nat) (items : list sitem) : list ascii :=
  match items with
  | [] => []
  | SByte c :: rest =>
      match pending with
      | S n => c :: unquote n rest
      | O =>
          if (byte_of c <? 128)%Z then c :: unquote O rest
          else
            match sequence_tail (byte_of c) rest with
            | Some n => c :: unquote n rest
            | None => utf8_encode 65533 ++ unquote O rest
            end
      end
  | SUnit u :: rest =>
      if is_high_surrogate u then
        match rest with
        | SUnit lo :: rest' =>
            if is_low_surrogate lo then
              utf8_encode (65536 + (u - 55296) * 1024 + (lo - 56320)) ++ unquote O rest'
            else utf8_encode 65533 ++ unquote O rest
        | _ => utf8_encode 65533 ++ unquote O rest
        end
      else if is_low_surrogate u then utf8_encode 65533 ++ unquote O rest
      else utf8_encode u ++ unquote O rest
  end.

(** [json.Marshal] writes a Go string coerced to valid UTF-8: a byte that is
    no part of well-formed UTF-8 is written as the escape of U+FFFD, so that
    is what the document has in its place.  The test is the one of [unquote],
    [utf8.DecodeRune] in both. *)
Definition coerce (s : string) : string :=
  string_of_list_ascii (unquote O (map SByte (list_ascii_of_string s))).

Definition escape_char (c : ascii) : option ascii :=
  match c with
  | "034"%char => Some "034"%char
  | "\"%char => Some "\"%char
  | "/"%char => Some "/"%char
  | "b"%char => Some "008"%char
  | "f"%char => Some "012"%char
  | "n"%char => Some "010"%char
  | "r"%char => Some "013"%char
  | "t"%char => Some "009"%char
  | _ => None
  end.

(** *** The scanner, one byte at a time *)

Inductive lstate :=
| LIdle
| LWord (w : list ascii)
| LStr (items : list sitem)
| LEsc (items : list sitem)
| LHex (items : list sitem) (digits : list Z).

(** A byte met between tokens. *)
Definition idle_step (c : ascii) : option (option token * lstate) :=
  if is_space c then Some (None, LIdle)
  else if is_word c then Some (None, LWord [c])
  else
    match c with
    | "{"%char => Some (Some TLBrace, LIdle)
    | "}"%char => Some (Some TRBrace, LIdle)
    | "["%char => Some (Some TLBracket, LIdle)
    | "]"%char => Some (Some TRBracket, LIdle)
    | ":"%char => Some (Some TColon, LIdle)
    | ","%char => Some (Some TComma, LIdle)
    | "034"%char => Some (None, LStr [])
    | _ => None
    end.

Definition emit (t : option token) (ts : option (list token)) : option (list token) :=
  match t with
  | Some t => cons t <$> ts
  | None => ts
  end.

Fixpoint lex (st : lstate) (input : list ascii) : option (list token) :=
  match input with
  | [] =>
      match st with
      | LIdle => Some []
      | LWord w => t ← classify_word (rev w); Some [t]
      | _ => None
      end
  | c :: rest =>
      match st with
      | LIdle =>
          '(t, st') ← idle_step c; emit t (lex st' rest)
      | LWord w =>
          if is_word c then lex (LWord (c :: w)) rest
          else
            tw ← classify_word (rev w);
            '(t, st') ← idle_step c;
            cons tw <$> emit t (lex st' rest)
      | LStr items =>
          if Ascii.eqb c quote then
            cons (TString (string_of_list_ascii (unquote O (rev items)))) <$> lex LIdle rest
          else if Ascii.eqb c "\" then lex (LEsc items) rest
          else if (byte_of c <? 32)%Z then None
          else lex (LStr (SByte c :: items)) rest
      | LEsc items =>
          if Ascii.eqb c "u" then lex (LHex items []) rest
          else e ← escape_char c; lex (LStr (SByte e :: items)) rest
      | LHex items ds =>
          h ← hex_val c;
          match ds with
          | [d3; d2; d1] =>
              lex (LStr (SUnit (((d1 * 16 + d2) * 16 + d3) * 16 + h) :: items)) rest
          | _ => lex (LHex items (h :: ds)) rest
          end
      end
  end.

(** *** The grammar, as a pushdown machine over the tokens *)

Inductive frame :=
| FArray (items : list json)
| FObject (members : list (string * json)) (key : string).

Inductive expect :=
| EValue          (* a value *)
| EValueOrClose   (* a value or ], just after [ *)
| EKeyOrClose     (* a key or }, just after { *)
| EKey            (* a key, after a comma *)
| EColon          (* the colon after a key *)
| ENext           (* a comma or the closing bracket *)
| EDone (v : json).

Definition maxNestingDepth : Z := 10000.

(** A value [v] is complete: it goes into the enclosing container. *)
Definition complete (v : json) (stack : list frame) : list frame * expect :=
  match stack with
  | [] => ([], EDone v)
  | FArray items :: stack' => (FArray (v :: items) :: stack', ENext)
  | FObject members key :: stack' => (FObject ((key, v) :: members) key :: stack', ENext)
  end.

Definition push (f : frame) (e : expect) (stack : list frame) : option (list frame * expect) :=
  if (maxNestingDepth <=? Z.of_nat (length stack))%Z then None else Some (f :: stack, e).

Definition begin_value (t : token) (stack : list frame) : option (list frame * expect) :=
  match t with
  | TString s => Some (complete (JString s) stack)
  | TNumber n => Some (complete (JNumber n) stack)
  | TTrue => Some (complete (JBool true) stack)
  | TFalse => Some (complete (JBool false) stack)
  | TNull => Some (complete JNull stack)
  | TLBracket => push (FArray []) EValueOrClose stack
  | TLBrace => push (FObject [] "") EKeyOrClose stack
  | _ => None
  end.

Definition pstep (t : token) (stack : list frame) (e : expect) : option (list frame * expect) :=
  match e, t, stack with
  | EValue, _, _ => begin_value t stack
  | EValueOrClose, TRBracket, FArray _ :: stack' => Some (complete (JArray []) stack')
  | EValueOrClose, _, _ => begin_value t stack
  | EKeyOrClose, TRBrace, FObject _ _ :: stack' => Some (complete (JObject []) stack')
  | (EKeyOrClose | EKey), TString k, FObject members _ :: stack' =>
      Some (FObject members k :: stack', EColon)
  | EColon, TColon, _ => Some (stack, EValue)
  | ENext, TComma, FArray _ :: _ => Some (stack, EValue)
  | ENext, TComma, FObject _ _ :: _ => Some (stack, EKey)
  | ENext, TRBracket, FArray items :: stack' => Some (complete (JArray (rev items)) stack')
  | ENext, TRBrace, FObject members _ :: stack' => Some (complete (JObject (rev members)) stack')
  | _, _, _ => None
  end.

Fixpoint pda (ts : list token) (stack : list frame) (e : expect) : option json :=
  match ts with
  | [] => match e with EDone v => Some v | _ => None end
  | t :: ts' => '(stack', e') ← pstep t stack e; pda ts' stack' e'
  end.

(** The document denoted by a text; [None] when the text is not valid JSON. *)
Definition parse (data : string) : option json :=
  ts ← lex LIdle (list_ascii_of_string data); pda ts [] EValue.

Definition checkValid (data : string) : bool := bool_decide (is_Some (parse data)).

End JSON.


(** ** encoding/json: from a document to Go values *)

Module Decode.
Import JSON.

(** *** float64

    A finite binary64 number is [significand * 2 ^ exponent].  JSON has no
    infinities and no NaN, and [strconv.ParseFloat] reports a literal beyond
    the largest finite number as an error. *)
Record float64 := Float64 { significand : Z; exponent : Z }.

(** The largest [e] with [2 ^ e <= n / d], for positive [n] and [d]. *)
Definition floor_log2 (n d : Z) : Z :=
  let e := (Z.log2 n - Z.log2 d)%Z in
  let below := if (0 <=? e)%Z then (n <? d * 2 ^ e)%Z else (n * 2 ^ (- e) <? d)%Z in
  if below then (e - 1)%Z else e.

(** The binary64 number nearest to [n / d], ties to the even significand;
    subnormal below [2 ^ -1022]. *)
Definition round_ratio (n d : Z) : Z * Z :=
  let q := Z.max (floor_log2 n d - 52) (-1074) in
  let num := (n * 2 ^ Z.max (- q) 0)%Z in
  let den := (d * 2 ^ Z.max q 0)%Z in
  let a := (num / den)%Z in
  let r := (num mod den)%Z in
  let up := (den <? 2 * r)%Z || ((2 * r =? den)%Z && Z.odd a) in
  (if up then (a + 1)%Z else a, q).

(** [strconv.ParseFloat(s, 64)] on a valid JSON number literal. *)
Definition ParseFloat (x : number) : option float64 :=
  let c := Z.abs (coefficient x) in
  if (c =? 0)%Z then Some (Float64 0 0)
  else
    let '(m, q) :=
      if (0 <=? exponent10 x)%Z then round_ratio (c * 10 ^ exponent10 x) 1
      else round_ratio c (10 ^ (- exponent10 x)) in
    if (0 <=? q)%Z && (2 ^ 1024 <=? m * 2 ^ q)%Z then None
    else Some (Float64 (Z.sgn (coefficient x) * m) q).

(** The conversion [int(v)] of a float64: the fraction is discarded.  Go leaves
    the result open when the value does not fit; this is what amd64 gives. *)
Definition int_of_float64 (f : float64) : Z :=
  let t := if (0 <=? exponent f)%Z then (significand f * 2 ^ exponent f)%Z
           else Z.quot (significand f) (2 ^ (- exponent f)) in
  if (- 2 ^ 63 <=? t)%Z && (t <? 2 ^ 63)%Z then t else (- 2 ^ 63)%Z.

(** *** interface{}: what [json.Unmarshal] stores in an empty interface *)

Inductive value :=
| VNil
| VBool (b : bool)
| VFloat64 (f : float64)
| VString (s : string)
| VSlice (items : list value)
| VMap (m : gmap string value).

Definition insert_all {A} (kvs : list (string * A)) (m : gmap string A) : gmap string A :=
  fold_left (fun m kv => <[kv.1 := kv.2]> m) kvs m.

(** [valueInterface]: a number out of range leaves nil (and an error, see
    [numbers_ok]); of a key written twice the last value stays. *)
Fixpoint valueInterface (j : json) : value :=
  match j with
  | JNull => VNil
  | JBool b => VBool b
  | JNumber n => match ParseFloat n with Some f => VFloat64 f | None => VNil end
  | JString s => VString s
  | JArray items => VSlice (map valueInterface items)
  | JObject members =>
      VMap (insert_all (map (fun kv => (kv.1, valueInterface kv.2)) members) ∅)
  end.

Fixpoint numbers_ok (j : json) : bool :=
  match j with
  | JNumber n => bool_decide (is_Some (ParseFloat n))
  | JArray items => forallb numbers_ok items
  | JObject members => forallb (fun kv => numbers_ok kv.2) members
  | _ => true
  end.

(** *** Struct fields

    A key of the document selects the field whose name is equal to it under
    case folding.  The field names of this program are ASCII, and the only
    characters outside ASCII that fold to an ASCII letter are U+017F and
    U+212A.  A value of the wrong kind is an UnmarshalTypeError ([None]);
    null leaves a string, a number or a boolean as it was. *)

Definition lower (c : ascii) : ascii :=
  let b := byte_of c in
  if (65 <=? b)%Z && (b <=? 90)%Z then of_byte (b + 32) else c.

Fixpoint fold_bytes (l : list ascii) : list ascii :=
  match l with
  | "197"%char :: "191"%char :: rest => "s"%char :: fold_bytes rest
  | "226"%char :: "132"%char :: "170"%char :: rest => "k"%char :: fold_bytes rest
  | c :: rest => lower c :: fold_bytes rest
  | [] => []
  end.

Definition foldName (k : string) : string :=
  string_of_list_ascii (fold_bytes (list_ascii_of_string k)).

Definition store_string (v : json) (old : string) : option string :=
  match v with
  | JString s => Some s
  | JNull => Some old
  | _ => None
  end.

Definition store_int (v : json) (old : Z) : option Z :=
  match v with
  | JNumber n =>
      if integral n && (- 2 ^ 63 <=? coefficient n)%Z && (coefficient n <? 2 ^ 63)%Z
      then Some (coefficient n) else None
  | JNull => Some old
  | _ => None
  end.

Definition store_bool (v : json) (old : bool) : option bool :=
  match v with
  | JBool b => Some b
  | JNull => Some old
  | _ => None
  end.

(** A slice of strings is [None] when nil.  An array is decoded into the
    slice that is there, element by element: a string takes the place of the
    element, null leaves it as it is, and the length is cut to the length of
    the array.  An element behind the length of the slice is the one that the
    backing array holds there, the zero value when the array ends before:
    [backing] is the backing array from the element on.  An empty array gives
    a new empty slice, null gives nil. *)
Fixpoint store_elements (items : list json) (backing : list string)
  : option (list string * list string) :=
  match items with
  | [] => Some ([], backing)
  | item :: items' =>
      s ← store_string item (hd "" backing);
      '(elems, beyond) ← store_elements items' (tl backing);
      Some (s :: elems, beyond)
  end.

Definition store_strings (v : json) (old : option (list string)) (beyond : list string)
  : option (option (list string) * list string) :=
  match v with
  | JArray [] => Some (Some [], [])
  | JArray items =>
      '(elems, beyond') ← store_elements items (default [] old ++ beyond);
      Some (Some elems, beyond')
  | JNull => Some (None, [])
  | _ => None
  end.

(** A map is [None] when nil; an object adds its keys to the map that is
    already there. *)
Definition store_map (v : json) (old : option (gmap string value))
  : option (option (gmap string value)) :=
  match v with
  | JObject members =>
      if forallb (fun kv => numbers_ok kv.2) members then
        Some (Some (insert_all (map (fun kv => (kv.1, valueInterface kv.2)) members)
                               (default ∅ old)))
      else None
  | JNull => Some None
  | _ => None
  end.

(** Decoding an object into a struct: [set] stores one member. *)
Definition fields {T} (set : T -> string -> json -> option T)
    (members : list (string * json)) (zero : T) : option T :=
  fold_left (fun acc kv => t ← acc; set t (foldName kv.1) kv.2) members (Some zero).

Definition object {T} (set : T -> string -> json -> option T) (old : T) (v : json) : option T :=
  match v with
  | JObject members => fields set members old
  | JNull => Some old
  | _ => None
  end.

Definition array {T} (elem : json -> option T) (v : json) : option (option (list T)) :=
  match v with
  | JArray items => Some <$> mapM elem items
  | JNull => Some None
  | _ => None
  end.

End Decode.

Import JSON Decode.

(** ** net/url: query strings *)

Module url.

Definition hex_digit (z : Z) : ascii :=
  if (z <? 10)%Z then of_byte (48 + z) else of_byte (55 + z).

Definition shouldEscape (c : ascii) : bool :=
  negb (JSON.is_digit c || JSON.is_letter c ||
        match c with
        | "-"%char | "_"%char | "."%char | "~"%char => true
        | _ => false
        end).

Definition escape_byte (c : ascii) : list ascii :=
  if Ascii.eqb c " " then ["+"%char]
  else if shouldEscape c then
    ["%"%char; hex_digit (byte_of c / 16); hex_digit (byte_of c mod 16)]
  else [c].

Definition QueryEscape (s : string) : string :=
  string_of_list_ascii (concat (map escape_byte (list_ascii_of_string s))).

(** [url.Values], with one value per key as [Set] leaves it; kept in the
    order of the keys, which is the order [Encode] writes them in. *)
Definition Values := list (string * string).

Fixpoint Set_ (k v : string) (vs : Values) : Values :=
  match vs with
  | [] => [(k, v)]
  | (k', v') :: rest =>
      if String.eqb k k' then (k, v) :: rest
      else if String.ltb k k' then (k, v) :: vs
      else (k', v') :: Set_ k v rest
  end.

Fixpoint Encode (vs : Values) : string :=
  match vs with
  | [] => ""
  | [(k, v)] => QueryEscape k +:+ "=" +:+ QueryEscape v
  | (k, v) :: rest => QueryEscape k +:+ "=" +:+ QueryEscape v +:+ "&" +:+ Encode rest
  end.

End url.

(** ** package taskboard: the client of the remote API *)

Module taskboard.

(** A Go slice that may be nil. *)
Definition slice (A : Type) := option (list A).

Module Board.
Record t := mk { ID : string; Name : string; Description : string; TicketPrefix : string }.
Definition zero : t := mk "" "" "" "".
(** Keys: _id, name, description, ticketPrefix. *)
Definition set (b : t) (key : string) (v : json) : option t :=
  if String.eqb key "_id" then
    s ← store_string v (ID b); Some (mk s (Name b) (Description b) (TicketPrefix b))
  else if String.eqb key "name" then
    s ← store_string v (Name b); Some (mk (ID b) s (Description b) (TicketPrefix b))
  else if String.eqb key "description" then
    s ← store_string v (Description b); Some (mk (ID b) (Name b) s (TicketPrefix b))
  else if String.eqb key "ticketprefix" then
    s ← store_string v (TicketPrefix b); Some (mk (ID b) (Name b) (Description b) s)
  else Some b.
End Board.

Module Task.
Record t := mk {
  ID : string;
  TicketNumber : string;
  BoardID : string;
  Title : string;
  Description : string;
  Status : string;
  Priority : Z;
  Assignee : string;
  Tags : slice string }.
Definition zero : t := mk "" "" "" "" "" "" 0 "" None.
(** A task while [json.Unmarshal] fills it: the struct, and what the backing
    array of Tags holds behind the length of the slice. *)
Definition decoding : Type := t * list string.
(** Keys: _id, ticketNumber, boardId, title, description, status, priority,
    assignee, tags. *)
Definition set (x : decoding) (key : string) (v : json) : option decoding :=
  let '(mk id tn bd ti de st pr asg tg, beyond) := x in
  if String.eqb key "_id" then
    s ← store_string v id; Some (mk s tn bd ti de st pr asg tg, beyond)
  else if String.eqb key "ticketnumber" then
    s ← store_string v tn; Some (mk id s bd ti de st pr asg tg, beyond)
  else if String.eqb key "boardid" then
    s ← store_string v bd; Some (mk id tn s ti de st pr asg tg, beyond)
  else if String.eqb key "title" then
    s ← store_string v ti; Some (mk id tn bd s de st pr asg tg, beyond)
  else if String.eqb key "description" then
    s ← store_string v de; Some (mk id tn bd ti s st pr asg tg, beyond)
  else if String.eqb key "status" then
    s ← store_string v st; Some (mk id tn bd ti de s pr asg tg, beyond)
  else if String.eqb key "priority" then
    n ← store_int v pr; Some (mk id tn bd ti de st n asg tg, beyond)
  else if String.eqb key "assignee" then
    s ← store_string v asg; Some (mk id tn bd ti de st pr s tg, beyond)
  else if String.eqb key "tags" then
    '(l, beyond') ← store_strings v tg beyond; Some (mk id tn bd ti de st pr asg l, beyond')
  else Some x.
(** A document decoded into a new task. *)
Definition decode (doc : json) : option t := fst <$> object set (zero, []) doc.
End Task.

Module User.
Record t := mk { ID : string; Name : string; Email : string; IsAgent : bool }.
Definition zero : t := mk "" "" "" false.
(** Keys: _id, name, email, isAgent. *)
Definition set (u : t) (key : string) (v : json) : option t :=
  if String.eqb key "_id" then
    s ← store_string v (ID u); Some (mk s (Name u) (Email u) (IsAgent u))
  else if String.eqb key "name" then
    s ← store_string v (Name u); Some (mk (ID u) s (Email u) (IsAgent u))
  else if String.eqb key "email" then
    s ← store_string v (Email u); Some (mk (ID u) (Name u) s (IsAgent u))
  else if String.eqb key "isagent" then
    b ← store_bool v (IsAgent u); Some (mk (ID u) (Name u) (Email u) b)
  else Some u.
End User.

(** *** Errors

    A Go error is kept with what made it: the message of [fmt.Errorf], the
    message of an error of net/http or io, or the Go type and the text that
    [json.Unmarshal] could not bring together. *)
Inductive error :=
| Errorf (msg : string)
| HTTPError (msg : string)
| UnmarshalError (target data : string).

Inductive result (A : Type) :=
| Ok (a : A)
| Err (e : error).
Arguments Ok {A} a.
Arguments Err {A} e.

(** [json.Unmarshal(data, &v)] for a fresh [v]: the syntax is checked first,
    then the document is stored. *)
Definition Unmarshal {T} (target : string) (store : json -> option T) (data : string)
  : result T :=
  match parse data with
  | None => Err (UnmarshalError target data)
  | Some doc =>
      match store doc with
      | Some v => Ok v
      | None => Err (UnmarshalError target data)
      end
  end.

Definition UnmarshalTask : string -> result Task.t :=
  Unmarshal "Task" Task.decode.
Definition UnmarshalTasks : string -> result (slice Task.t) :=
  Unmarshal "[]Task" (array Task.decode).
Definition UnmarshalBoards : string -> result (slice Board.t) :=
  Unmarshal "[]Board" (array (object Board.set Board.zero)).
Definition UnmarshalUsers : string -> result (slice User.t) :=
  Unmarshal "[]User" (array (object User.set User.zero)).

(** *** The remote service

    The client sees the service through [http.Client.Do]: what comes back
    for a request may depend on every request made before it.  [Failed] is
    an error of [http.NewRequest], [Do] or [io.ReadAll]. *)
Record Request := {
  Method : string;
  URL : string;
  Authorization : string;
  ContentType : string;
  Body : option json }.

Inductive Outcome :=
| Failed (msg : string)
| Replied (StatusCode : Z) (body : string).

(** The requests made so far, oldest first. *)
Definition Log := list Request.

Record Client := {
  baseURL : string;
  token : string;
  http : Log -> Outcome   (* the answer to the last request of the log *) }.

(** Code that talks to the service threads the log of requests. *)
Definition IO (A : Type) : Type := Log -> A * Log.

Definition ret {A} (a : A) : IO A := fun log => (a, log).
Definition bind {A B} (m : IO A) (k : A -> IO B) : IO B :=
  fun log => let '(a, log') := m log in k a log'.

Notation "'let*' x ':=' m 'in' k" := (bind m (fun x => k))
  (at level 10, x name, m at level 100, k at level 200).

Definition Do (c : Client) (req : Request) : IO Outcome :=
  fun log => (http c (log ++ [req]), log ++ [req]).

(** [body] is the document that [json.Marshal] makes of the value handed to
    [request], [None] for nil.  The log takes every request, also one that
    [http.NewRequest] refuses. *)
Definition request (c : Client) (method path : string) (body : option json)
  : IO (result string) :=
  let* resp := Do c {| Method := method;
                  URL := baseURL c +:+ path;
                  Authorization := "Bearer " +:+ token c;
                  ContentType := "application/json";
                  Body := body |} in
  match resp with
  | Failed msg => ret (Err (HTTPError msg))
  | Replied StatusCode respBody =>
      if (400 <=? StatusCode)%Z then
        ret (Err (Errorf ("API error " +:+ itoa StatusCode +:+ ": " +:+ respBody)))
      else ret (Ok respBody)
  end.

(** *** API methods *)

Definition ListBoards (c : Client) : IO (result (slice Board.t)) :=
  let* r := request c "GET" "/api/boards" None in
  match r with
  | Err err => ret (Err err)
  | Ok data => ret (UnmarshalBoards data)
  end.

Definition ListTasks (c : Client) (boardID status assignee : string)
  : IO (result (slice Task.t)) :=
  let params : url.Values := [] in
  let params := if String.eqb boardID "" then params else url.Set_ "boardId" boardID params in
  let params := if String.eqb status "" then params else url.Set_ "status" status params in
  let params := if String.eqb assignee "" then params else url.Set_ "assignee" assignee params in
  let path := "/api/tasks" in
  let path := if (0 <? length params)%nat then path +:+ "?" +:+ url.Encode params else path in
  let* r := request c "GET" path None in
  match r with
  | Err err => ret (Err err)
  | Ok data => ret (UnmarshalTasks data)
  end.

Definition GetTask (c : Client) (idOrTicket : string) : IO (result Task.t) :=
  let byID :=
    let* r := request c "GET" ("/api/tasks/" +:+ idOrTicket) None in
    match r with
    | Err err => ret (Err err)
    | Ok data => ret (UnmarshalTask data)
    end in
  if contains_byte "-" idOrTicket then
    let* r := request c "GET" ("/api/tasks/by-ticket/" +:+ idOrTicket) None in
    match r with
    | Ok data =>
        match UnmarshalTask data with
        | Ok task => ret (Ok task)
        | Err _ => byID
        end
    | Err _ => byID
    end
  else byID.

Record CreateTaskParams := {
  cBoardID : string;
  cTitle : string;
  cDescription : string;
  cAssignee : string;
  cStatus : string;
  cPriority : Z }.

Record UpdateTaskParams := {
  uTitle : option string;
  uDescription : option string;
  uAssignee : option string;
  uStatus : option string;
  uPriority : option Z }.

Record AddCommentParams := { Text : string }.

(** [json.Marshal] of the three request bodies, as documents.  A string is
    written coerced to valid UTF-8.  A field tagged omitempty is left out
    when it is the empty string, zero or nil. *)
Definition JInt (z : Z) : json :=
  JNumber {| coefficient := z; exponent10 := 0; integral := true |}.

Definition JText (s : string) : json := JString (coerce s).

Definition omitempty_string (key s : string) : list (string * json) :=
  if String.eqb s "" then [] else [(key, JText s)].

Definition omitempty_int (key : string) (z : Z) : list (string * json) :=
  if (z =? 0)%Z then [] else [(key, JInt z)].

Definition omitempty_ptr {A} (key : string) (enc : A -> json) (p : option A)
  : list (string * json) :=
  match p with
  | Some a => [(key, enc a)]
  | None => []
  end.

Definition MarshalCreate (p : CreateTaskParams) : json :=
  JObject ([("boardId", JText (cBoardID p)); ("title", JText (cTitle p))]
           ++ omitempty_string "description" (cDescription p)
           ++ omitempty_string "assignee" (cAssignee p)
           ++ omitempty_string "status" (cStatus p)
           ++ omitempty_int "priority" (cPriority p)).

Definition MarshalUpdate (p : UpdateTaskParams) : json :=
  JObject (omitempty_ptr "title" JText (uTitle p)
           ++ omitempty_ptr "description" JText (uDescription p)
           ++ omitempty_ptr "assignee" JText (uAssignee p)
           ++ omitempty_ptr "status" JText (uStatus p)
           ++ omitempty_ptr "priority" JInt (uPriority p)).

Definition MarshalComment (p : AddCommentParams) : json :=
  JObject [("text", JText (Text p))].

Definition CreateTask (c : Client) (params : CreateTaskParams) : IO (result Task.t) :=
  let* r := request c "POST" "/api/tasks" (Some (MarshalCreate params)) in
  match r with
  | Err err => ret (Err err)
  | Ok data => ret (UnmarshalTask data)
  end.

Definition UpdateTask (c : Client) (idOrTicket : string) (params : UpdateTaskParams)
  : IO (result Task.t) :=
  let* r := GetTask c idOrTicket in
  match r with
  | Err err => ret (Err err)
  | Ok task =>
      let* w := request c "PUT" ("/api/tasks/" +:+ Task.ID task) (Some (MarshalUpdate params)) in
      match w with
      | Err err => ret (Err err)
      | Ok _ => GetTask c (Task.ID task)
      end
  end.

(** [json.Unmarshal(data, &result)] for a nil [map[string]interface{}]: what
    is left in [result], and the error returned. *)
Definition UnmarshalMap (data : string) : option (gmap string value) * option error :=
  match parse data with
  | None => (None, Some (UnmarshalError "map[string]interface {}" data))
  | Some (JObject members) =>
      (Some (insert_all (map (fun kv => (kv.1, valueInterface kv.2)) members) ∅),
       if forallb (fun kv => numbers_ok kv.2) members then None
       else Some (UnmarshalError "map[string]interface {}" data))
  | Some JNull => (None, None)
  | Some _ => (None, Some (UnmarshalError "map[string]interface {}" data))
  end.

Definition AddComment (c : Client) (idOrTicket text : string)
  : IO (result (option (gmap string value))) :=
  let* r := GetTask c idOrTicket in
  match r with
  | Err err => ret (Err err)
  | Ok task =>
      let* w := request c "POST" ("/api/tasks/" +:+ Task.ID task +:+ "/comments")
             (Some (MarshalComment {| Text := text |})) in
      match w with
      | Err err => ret (Err err)
      | Ok data => let '(result, _) := UnmarshalMap data in ret (Ok result)
      end
  end.

Definition ListUsers (c : Client) : IO (result (slice User.t)) :=
  let* r := request c "GET" "/api/users" None in
  match r with
  | Err err => ret (Err err)
  | Ok data => ret (UnmarshalUsers data)
  end.

End taskboard.

(** ** package mcp: the dispatcher *)

Module mcp.
Import taskboard.

Definition ProtocolVersion : string := "2024-11-05".
Definition ServerName : string := "taskboard-mcp".
Definition ServerVersion : string := "0.1.0".

(** *** Protocol types

    Modelled from the spec: the type declarations of package mcp (Request,
    Response, Error, Tool, InputSchema, Property, CallToolParams,
    CallToolResult, ContentBlock, InitializeResult and the like) are not part
    of the sources at hand.  The fields are the ones server.go and main.go
    read and write; the keys of a request (jsonrpc, id, method, params) and
    of the tools/call payload (name, arguments) are the ones of the
    specification's interface section. *)

(** [json.RawMessage]: the bytes of one value of a document, kept as the
    value they denote; [None] is the nil slice of an absent key. *)
Definition RawMessage := option json.

(** A [map[string]interface{}]; [None] is the nil map. *)
Definition Args := option (gmap string value).

Module Request.
Record t := mk { JSONRPC : string; ID : value; Method : string; Params : RawMessage }.
Definition zero : t := mk "" VNil "" None.
Definition set (r : t) (key : string) (v : json) : option t :=
  if String.eqb key "jsonrpc" then
    s ← store_string v (JSONRPC r); Some (mk s (ID r) (Method r) (Params r))
  else if String.eqb key "id" then
    if numbers_ok v then Some (mk (JSONRPC r) (valueInterface v) (Method r) (Params r))
    else None
  else if String.eqb key "method" then
    s ← store_string v (Method r); Some (mk (JSONRPC r) (ID r) s (Params r))
  else if String.eqb key "params" then Some (mk (JSONRPC r) (ID r) (Method r) (Some v))
  else Some r.
End Request.

Module CallToolParams.
Record t := mk { Name : string; Arguments : Args }.
Definition zero : t := mk "" None.
Definition set (p : t) (key : string) (v : json) : option t :=
  if String.eqb key "name" then s ← store_string v (Name p); Some (mk s (Arguments p))
  else if String.eqb key "arguments" then m ← store_map v (Arguments p); Some (mk (Name p) m)
  else Some p.
End CallToolParams.

Module Property.
Record t := mk { Type_ : string; Description : string; Enum : list string }.
End Property.

Module InputSchema.
Record t := mk {
  Type_ : string;
  Properties : gmap string Property.t;
  Required : list string }.
End InputSchema.

Module Tool.
Record t := mk { Name : string; Description : string; InputSchema : InputSchema.t }.
End Tool.

Module Error.
Record t := mk { Code : Z; Message : string; Data : string }.
End Error.

Module ContentBlock.
Record t := mk { Type_ : string; Text : string }.
End ContentBlock.

Module CallToolResult.
Record t := mk { Content : list ContentBlock.t; IsError : bool }.
End CallToolResult.

Record ServerInfo := { Name : string; Version : string }.
Record ToolsCapability := { }.
Record ServerCapabilities := { Tools : option ToolsCapability }.
Record InitializeResult := {
  protocolVersion : string;
  Capabilities : ServerCapabilities;
  serverInfo : ServerInfo }.

(** What a [Response] carries in its [Result], an interface{}. *)
Inductive Result :=
| OfInitialize (r : InitializeResult)
| OfToolsList (tools : list Tool.t)
| OfCallTool (r : CallToolResult.t).

Module Response.
Record t := mk {
  JSONRPC : string;
  ID : value;
  Result : option Result;
  Error : option Error.t }.
End Response.

(** What [callTool] returns in its interface{}: the value of one of the
    client's methods. *)
Inductive ToolValue :=
| Boards (l : slice Board.t)
| Tasks (l : slice Task.t)
| TaskPtr (task : Task.t)
| Comment (m : option (gmap string value))
| Users (l : slice User.t).

(** Two texts come from the Go libraries in a format that this development
    leaves open: the indented JSON of a tool's value, and the message of an
    error of [json.Unmarshal] (which depends on the text refused and on the
    type it was meant for). *)
Class Texts := {
  MarshalIndent : ToolValue -> string;
  UnmarshalErrorText : string -> string -> string }.

(** [err.Error()]. *)
Definition ErrorText `{Texts} (err : error) : string :=
  match err with
  | Errorf msg => msg
  | HTTPError msg => msg
  | UnmarshalError target data => UnmarshalErrorText target data
  end.

Definition UnmarshalRequest : string -> result Request.t :=
  Unmarshal "Request" (object Request.set Request.zero).

(** [json.Unmarshal(req.Params, &params)]; a nil RawMessage is no document. *)
Definition UnmarshalCallToolParams (raw : RawMessage) : option CallToolParams.t :=
  doc ← raw; object CallToolParams.set CallToolParams.zero doc.

(** *** The server *)

Record Server := { client : Client; tools : list Tool.t }.

Definition statusEnum : list string :=
  ["backlog"; "todo"; "in-progress"; "in-qa"; "completed"; "rfp"; "closed"].

Definition prop (ty desc : string) : Property.t := Property.mk ty desc [].

Definition registerTools : list Tool.t :=
  [ Tool.mk "list_boards" "List all boards" (InputSchema.mk "object" ∅ []);
    Tool.mk "list_tasks" "List tasks with optional filters"
      (InputSchema.mk "object"
         (<["board_id" := prop "string" "Filter by board ID"]>
          (<["status" := Property.mk "string" "Filter by status" statusEnum]>
           (<["assignee" := prop "string" "Filter by assignee email"]> ∅)))
         []);
    Tool.mk "get_task" "Get a task by ID or ticket number (e.g., MNS-42)"
      (InputSchema.mk "object"
         (<["id" := prop "string" "Task ID or ticket number"]> ∅)
         ["id"]);
    Tool.mk "create_task" "Create a new task"
      (InputSchema.mk "object"
         (<["board_id" := prop "string" "Board ID"]>
          (<["title" := prop "string" "Task title"]>
           (<["description" := prop "string" "Task description"]>
            (<["assignee" := prop "string" "Assignee email"]>
             (<["priority" := prop "integer" "Priority (1=highest, 5=lowest)"]>
              (<["status" := Property.mk "string" "Initial status" statusEnum]> ∅))))))
         ["board_id"; "title"]);
    Tool.mk "update_task" "Update a task"
      (InputSchema.mk "object"
         (<["id" := prop "string" "Task ID or ticket number"]>
          (<["title" := prop "string" "New title"]>
           (<["description" := prop "string" "New description"]>
            (<["assignee" := prop "string" "New assignee email"]>
             (<["status" := Property.mk "string" "New status" statusEnum]>
              (<["priority" := prop "integer" "New priority (1=highest, 5=lowest)"]> ∅))))))
         ["id"]);
    Tool.mk "add_comment" "Add a comment to a task"
      (InputSchema.mk "object"
         (<["task_id" := prop "string" "Task ID or ticket number"]>
          (<["text" := prop "string" "Comment text"]> ∅))
         ["task_id"; "text"]);
    Tool.mk "list_users" "List all team members (for task assignment)"
      (InputSchema.mk "object" ∅ []) ].

Definition NewServer (client : Client) : Server :=
  {| client := client; tools := registerTools |}.

(** *** Arguments of a tool call *)

(** [args[key]]: nil when the map is nil or has no such key. *)
Definition index (args : Args) (key : string) : value :=
  match args with
  | Some m => default VNil (m !! key)
  | None => VNil
  end.

(** The type assertions [v.(string)] and [v.(float64)] in their two-value
    form. *)
Definition assert_string (v : value) : string * bool :=
  match v with
  | VString s => (s, true)
  | _ => ("", false)
  end.

Definition assert_float64 (v : value) : float64 * bool :=
  match v with
  | VFloat64 f => (f, true)
  | _ => (Float64 0 0, false)
  end.

Definition getString (args : Args) (key : string) : string :=
  let '(v, _) := assert_string (index args key) in v.

Definition getStringPtr (args : Args) (key : string) : option string :=
  let '(v, ok) := assert_string (index args key) in
  if ok then Some v else None.

Definition getInt (args : Args) (key : string) : Z :=
  let '(v, ok) := assert_float64 (index args key) in
  if ok then int_of_float64 v else 0%Z.

Definition getIntPtr (args : Args) (key : string) : option Z :=
  let '(v, ok) := assert_float64 (index args key) in
  if ok then Some (int_of_float64 v) else None.

(** A method's value and error, returned as interface{} and error. *)
Definition returning {A} (wrap : A -> ToolValue) (m : IO (result A)) : IO (result ToolValue) :=
  let* r := m in
  match r with
  | Ok a => ret (Ok (wrap a))
  | Err err => ret (Err err)
  end.

Definition callTool (s : Server) (name : string) (args : Args) : IO (result ToolValue) :=
  if String.eqb name "list_boards" then returning Boards (ListBoards (client s))
  else if String.eqb name "list_tasks" then
    let '(boardID, _) := assert_string (index args "board_id") in
    let '(status, _) := assert_string (index args "status") in
    let '(assignee, _) := assert_string (index args "assignee") in
    returning Tasks (ListTasks (client s) boardID status assignee)
  else if String.eqb name "get_task" then
    let '(id, ok) := assert_string (index args "id") in
    if negb ok || String.eqb id "" then ret (Err (Errorf "id is required"))
    else returning TaskPtr (GetTask (client s) id)
  else if String.eqb name "create_task" then
    let '(boardID, _) := assert_string (index args "board_id") in
    let '(title, _) := assert_string (index args "title") in
    if String.eqb boardID "" || String.eqb title "" then
      ret (Err (Errorf "board_id and title are required"))
    else
      returning TaskPtr
        (CreateTask (client s)
           {| cBoardID := boardID;
              cTitle := title;
              cDescription := getString args "description";
              cAssignee := getString args "assignee";
              cStatus := getString args "status";
              cPriority := getInt args "priority" |})
  else if String.eqb name "update_task" then
    let '(id, _) := assert_string (index args "id") in
    if String.eqb id "" then ret (Err (Errorf "id is required"))
    else
      returning TaskPtr
        (UpdateTask (client s) id
           {| uTitle := getStringPtr args "title";
              uDescription := getStringPtr args "description";
              uAssignee := getStringPtr args "assignee";
              uStatus := getStringPtr args "status";
              uPriority := getIntPtr args "priority" |})
  else if String.eqb name "add_comment" then
    let '(taskID, _) := assert_string (index args "task_id") in
    let '(text, _) := assert_string (index args "text") in
    if String.eqb taskID "" || String.eqb text "" then
      ret (Err (Errorf "task_id and text are required"))
    else returning Comment (AddComment (client s) taskID text)
  else if String.eqb name "list_users" then returning Users (ListUsers (client s))
  else ret (Err (Errorf ("unknown tool: " +:+ name))).

(** *** Methods *)

Definition handleInitialize (s : Server) (req : Request.t) : Response.t :=
  Response.mk "2.0" (Request.ID req)
    (Some (OfInitialize
             {| protocolVersion := ProtocolVersion;
                Capabilities := {| Tools := Some Build_ToolsCapability |};
                serverInfo := {| Name := ServerName; Version := ServerVersion |} |}))
    None.

Definition handleToolsList (s : Server) (req : Request.t) : Response.t :=
  Response.mk "2.0" (Request.ID req) (Some (OfToolsList (tools s))) None.

Definition handleToolsCall `{Texts} (s : Server) (req : Request.t) : IO Response.t :=
  match UnmarshalCallToolParams (Request.Params req) with
  | None =>
      ret (Response.mk "2.0" (Request.ID req) None
             (Some (Error.mk (-32602) "Invalid params" "")))
  | Some params =>
      let* r := callTool s (CallToolParams.Name params) (CallToolParams.Arguments params) in
      match r with
      | Err err =>
          ret (Response.mk "2.0" (Request.ID req)
                 (Some (OfCallTool
                          (CallToolResult.mk
                             [ContentBlock.mk "text" ("Error: " +:+ ErrorText err)] true)))
                 None)
      | Ok result =>
          let resultJSON := MarshalIndent result in
          ret (Response.mk "2.0" (Request.ID req)
                 (Some (OfCallTool
                          (CallToolResult.mk [ContentBlock.mk "text" resultJSON] false)))
                 None)
      end
  end.

Definition Handle `{Texts} (s : Server) (req : Request.t) : IO Response.t :=
  let method := Request.Method req in
  if String.eqb method "initialize" then ret (handleInitialize s req)
  else if String.eqb method "initialized" then
    ret (Response.mk "2.0" (Request.ID req) None None)
  else if String.eqb method "tools/list" then ret (handleToolsList s req)
  else if String.eqb method "tools/call" then handleToolsCall s req
  else
    ret (Response.mk "2.0" (Request.ID req) None
           (Some (Error.mk (-32601) "Method not found" ""))).

End mcp.

(** ** bufio: lines of the input *)

Module bufio.

(** [dropCR] on a line kept last byte first. *)
Definition dropCR (reversed : list ascii) : list ascii :=
  match reversed with
  | "013"%char :: line => rev line
  | _ => rev reversed
  end.

(** The tokens that a [Scanner] with the split function [ScanLines] gives
    on an input whose lines fit its buffer (a longer line ends the scan with
    an error): a line ends at a line feed, one carriage return before it is
    dropped, an empty line is a token, and what is left after the last line
    feed is a token when it is not empty. *)
Fixpoint scan (current : list ascii) (input : list ascii) : list string :=
  match input with
  | [] =>
      match current with
      | [] => []
      | _ => [string_of_list_ascii (dropCR current)]
      end
  | c :: rest =>
      if Ascii.eqb c "010" then string_of_list_ascii (dropCR current) :: scan [] rest
      else scan (c :: current) rest
  end.

Definition ScanLines (input : string) : list string := scan [] (list_ascii_of_string input).

(** *** The scanner and its buffer *)

(** The size that the buffer of a scanner of [NewScanner] can grow to. *)
Definition MaxScanTokenSize : Z := 64 * 1024.

Definition ErrTooLong : string := "bufio.Scanner: token too long".

(** [bytes.IndexByte]. *)
Fixpoint IndexByte (data : list ascii) (c : ascii) : option nat :=
  match data with
  | [] => None
  | b :: rest => if Ascii.eqb b c then Some O else S <$> IndexByte rest c
  end.

(** The split function of the scanner, which is [ScanLines] of package
    bufio, on the bytes [data] of the buffer: how many bytes to advance and
    the token, no token when more bytes are needed. *)
Definition splitLines (data : list ascii) (atEOF : bool) : nat * option string :=
  if atEOF && (length data =? 0)%nat then (O, None)
  else
    match IndexByte data "010" with
    | Some i => (S i, Some (string_of_list_ascii (dropCR (rev (take i data)))))
    | None =>
        if atEOF then (length data, Some (string_of_list_ascii (dropCR (rev data))))
        else (O, None)
    end.

(** [Scan] called until it gives false, and [Err] after that: the tokens and
    the error.  [Scan] reads until the split function finds a token in the
    buffer, and the buffer grows to [maxTokenSize] bytes and no further: what
    the split function gets to see of the input that is left are its first
    [maxTokenSize] bytes at most, with atEOF when the input ends before the
    buffer is full.  A buffer that is full and has no token ends the scan
    with [ErrTooLong].  [readErr] is the error that ends the input, [None]
    for io.EOF.  The reads that the input comes in make no difference: the
    split function finds the first line feed, in a part of the buffer as in
    the whole.  [fuel] is one more than the length of the input, as every
    token takes a byte or is the last. *)
Fixpoint scanning (fuel : nat) (maxTokenSize : nat) (input : list ascii)
    (readErr : option string) : list string * option string :=
  match fuel with
  | O => ([], readErr)
  | S fuel' =>
      let atEOF := (length input <? maxTokenSize)%nat in
      match splitLines (take maxTokenSize input) atEOF with
      | (advance, Some token) =>
          let '(tokens, err) := scanning fuel' maxTokenSize (drop advance input) readErr in
          (token :: tokens, err)
      | (_, None) => ([], if atEOF then readErr else Some ErrTooLong)
      end
  end.

(** The lines that [scanner.Text] gives in the loop [for scanner.Scan()]
    of a scanner of [NewScanner] on the input, and [scanner.Err()]. *)
Definition Scan (input : string) (readErr : option string) : list string * option string :=
  scanning (S (String.length input)) (Z.to_nat MaxScanTokenSize)
    (list_ascii_of_string input) readErr.

End bufio.

(** ** package main: the transport loop *)

Module main.
Import taskboard mcp.

(** [sendError] prints one response. *)
Definition sendError (id : value) (code : Z) (message data : string) : Response.t :=
  Response.mk "2.0" id None (Some (Error.mk code message data)).

(** The body of the loop for one line that [scanner.Text] gives: the response
    printed for it.  Standard output is the list of the responses printed,
    each of them one line of [json.Marshal]. *)
Definition serve `{Texts} (server : Server) (line : string) : IO Response.t :=
  match UnmarshalRequest line with
  | Err err => ret (sendError VNil (-32700) "Parse error" (ErrorText err))
  | Ok request => Handle server request
  end.

Fixpoint loop `{Texts} (server : Server) (lines : list string) : IO (list Response.t) :=
  match lines with
  | [] => ret []
  | line :: rest =>
      let* response := serve server line in
      let* printed := loop server rest in
      ret (response :: printed)
  end.

(** How the process ends: [scanner.Err] is nil at the end of the input, and
    anything else is fatal.  [main] is taken from the point where its
    client is there; without a configuration the process ends before. *)
Inductive Exit := Clean | Fatal (msg : string).

Definition main `{Texts} (client : Client) (lines : list string) (scanErr : option string)
  : IO (list Response.t * Exit) :=
  let server := NewServer client in
  let* printed := loop server lines in
  match scanErr with
  | Some err => ret (printed, Fatal ("Error reading stdin: " +:+ err))
  | None => ret (printed, Clean)
  end.

(** [main] on the bytes of standard input: the lines are those that the
    scanner makes of them. *)
Definition stdio `{Texts} (client : Client) (stdin : string) (readErr : option string)
  : IO (list Response.t * Exit) :=
  let '(lines, scanErr) := bufio.Scan stdin readErr in
  main client lines scanErr.

End main.

(** ** Vocabulary of the properties *)

Import taskboard mcp main.

(** The request that [request] sends. *)
Definition sent (c : Client) (method path : string) (body : option json) : Request :=
  {| Method := method;
     URL := baseURL c +:+ path;
     Authorization := "Bearer " +:+ token c;
     ContentType := "application/json";
     Body := body |}.

(** What [request] makes of an answer of the service. *)
Definition bodyOf (o : Outcome) : result string :=
  match o with
  | Failed msg => Err (HTTPError msg)
  | Replied status body =>
      if (400 <=? status)%Z
      then Err (Errorf ("API error " +:+ itoa status +:+ ": " +:+ body))
      else Ok body
  end.

(** What one lookup of a task makes of an answer of the service. *)
Definition taskOf (o : Outcome) : result Task.t :=
  match bodyOf o with
  | Ok data => UnmarshalTask data
  | Err err => Err err
  end.

(** An answer with a status of 400 or more to the last request of a
    computation is the error that the computation returns. *)
Definition surfaces {A} (c : Client) (m : IO (result A)) : Prop :=
  forall log r log' status body,
    m log = (r, log') ->
    http c log' = Replied status body ->
    (400 <= status)%Z ->
    r = Err (Errorf ("API error " +:+ itoa status +:+ ": " +:+ body)).

(** The response that reports a failed tool call. *)
Definition toolError (id : value) (text : string) : Response.t :=
  Response.mk "2.0" id
    (Some (OfCallTool (CallToolResult.mk [ContentBlock.mk "text" text] true))) None.

Definition toolNames : list string := map Tool.Name registerTools.

(** The filters that list_tasks sends, in the order of [url.Values.Encode],
    and the path they make. *)
Definition filters (boardID status assignee : string) : url.Values :=
  (if String.eqb assignee "" then [] else [("assignee", assignee)]) ++
  (if String.eqb boardID "" then [] else [("boardId", boardID)]) ++
  (if String.eqb status "" then [] else [("status", status)]).

Definition tasksPath (boardID status assignee : string) : string :=
  match filters boardID status assignee with
  | [] => "/api/tasks"
  | query => "/api/tasks?" +:+ url.Encode query
  end.

(** An argument is of the wrong type for its key: priority is a number,
    every other parameter of the seven tools is a string. *)
Definition wrongType (key : string) (v : value) : Prop :=
  if String.eqb key "priority" then forall f, v <> VFloat64 f
  else forall text, v <> VString text.

(** What an argument contributes to the body of the PUT of update_task. *)
Definition suppliedString (args : Args) (key : string) : list (string * json) :=
  match index args key with
  | VString text => [(key, JText text)]
  | _ => []
  end.

Definition suppliedInt (args : Args) (key : string) : list (string * json) :=
  match index args key with
  | VFloat64 f => [(key, JInt (int_of_float64 f))]
  | _ => []
  end.

(** The text of a tool result that has a single block of content. *)
Definition resultText (r : Response.t) : option string :=
  match Response.Result r with
  | Some (OfCallTool (CallToolResult.mk [ContentBlock.mk _ text] _)) => Some text
  | _ => None
  end.

(** The GET requests of one [GetTask]: the lookup by identifier alone, or
    the lookup by ticket number, alone or followed by the one by identifier. *)
Definition lookups (c : Client) (idOrTicket : string) (reads : list Request) : Prop :=
  let byTicket := sent c "GET" ("/api/tasks/by-ticket/" +:+ idOrTicket) None in
  let byID := sent c "GET" ("/api/tasks/" +:+ idOrTicket) None in
  if contains_byte "-" idOrTicket then reads = [byTicket] \/ reads = [byTicket; byID]
  else reads = [byID].

(** The round trips of a successful update as the specification counts
    them: one read, one write, one read, the task being the one of the last
    read. *)
Definition three_requests (c : Client) (idOrTicket : string) (params : UpdateTaskParams)
    (log : Log) : Prop :=
  match UpdateTask c idOrTicket params log with
  | (Ok task, log') =>
      exists read1 write read2,
        log' = log ++ [read1; write; read2] /\
        Method read1 = "GET" /\ Method write = "PUT" /\ Method read2 = "GET" /\
        taskOf (http c log') = Ok task
  | (Err _, _) => True
  end.

(** ** Scenarios: a service that answers by method and URL *)

Module Scenario.

(** Any texts will do for a scenario. *)
#[export] Instance texts : Texts :=
  {| MarshalIndent := fun _ => "<indented JSON>";
     UnmarshalErrorText := fun target data => "json: cannot read " +:+ target |}.

Definition route : Type := string * string * Outcome.

Definition answer (routes : list route) (log : Log) : Outcome :=
  match last log with
  | Some req =>
      match find (fun r => String.eqb r.1.1 (Method req) && String.eqb r.1.2 (URL req)) routes with
      | Some r => r.2
      | None => Replied 404 "not found"
      end
  | None => Failed "no request"
  end.

Definition service (routes : list route) : Client :=
  {| baseURL := "https://board.example"; token := "t0k3n"; http := answer routes |}.

(** The ticket MNS-42 is not known under its ticket number, the lookup by
    identifier answers for it. *)
Definition fallback : Client :=
  service
    [ ("GET", "https://board.example/api/tasks/MNS-42",
       Replied 200 (qq "{'_id':'abc','ticketNumber':'MNS-42','status':'todo'}"));
      ("PUT", "https://board.example/api/tasks/abc", Replied 200 (qq "{'ok':true}"));
      ("GET", "https://board.example/api/tasks/abc",
       Replied 200 (qq "{'_id':'abc','ticketNumber':'MNS-42','status':'completed'}"));
      ("POST", "https://board.example/api/tasks/abc/comments", Replied 200 "OK") ].

(** The request that a line of input decodes to. *)
Definition decoded (line : string) : Request.t :=
  match UnmarshalRequest line with
  | Ok req => req
  | Err _ => Request.zero
  end.

Definition call_unknown : string :=
  qq "{'jsonrpc':'2.0','id':7,'method':'tools/call','params':{'name':'nope','arguments':{}}}".

Definition call_create_without_board : string :=
  qq "{'jsonrpc':'2.0','id':8,'method':'tools/call','params':{'name':'create_task','arguments':{'title':'Write the report'}}}".

Definition call_list_boards : string :=
  qq "{'jsonrpc':'2.0','id':9,'method':'tools/call','params':{'name':'list_boards'}}".

Definition call_tools_list : string :=
  qq "{'jsonrpc':'2.0','id':10,'method':'tools/list'}".

Definition call_add_comment : string :=
  qq "{'jsonrpc':'2.0','id':11,'method':'tools/call','params':{'name':'add_comment','arguments':{'task_id':'abc','text':'hi'}}}".

(** A service that answers every request with status 500. *)
Definition broken : Client :=
  {| baseURL := "https://board.example"; token := "t0k3n";
     http := fun _ => Replied 500 "internal error" |}.

(** The update of the README: the status becomes completed. *)
Definition completed : UpdateTaskParams :=
  {| uTitle := None; uDescription := None; uAssignee := None;
     uStatus := Some "completed"; uPriority := None |}.

End Scenario.

(** ** package taskboard: the client from the environment *)

Module startup.

(** [strings.TrimSuffix]: [s] without the trailing [suffix], or [s] itself
    when it does not end with it. *)
Fixpoint strip_prefix (p l : list ascii) : option (list ascii) :=
  match p, l with
  | [], _ => Some l
  | a :: p', b :: l' => if Ascii.eqb a b then strip_prefix p' l' else None
  | _ :: _, [] => None
  end.

Definition TrimSuffix (s suffix : string) : string :=
  match strip_prefix (rev (list_ascii_of_string suffix)) (rev (list_ascii_of_string s)) with
  | Some rest => string_of_list_ascii (rev rest)
  | None => s
  end.

Module Config.
Record t := mk { URL : string; Token : string }.
Definition zero : t := mk "" "".
(** Keys: url, token. *)
Definition set (cfg : t) (key : string) (v : json) : option t :=
  if String.eqb key "url" then s ← store_string v (URL cfg); Some (mk s (Token cfg))
  else if String.eqb key "token" then s ← store_string v (Token cfg); Some (mk (URL cfg) s)
  else Some cfg.
End Config.

(** What the process sees of its operating system: the environment, the home
    directory, [filepath.Join] (which depends on the platform) and the files.
    An error of package os is its message. *)
Record OS := {
  Getenv : string -> string;
  UserHomeDir : string + string;
  Join : list string -> string;
  ReadFile : string -> string + string }.

Inductive loadError :=
| HomeError (msg : string)
| ReadError (msg : string)
| ConfigError (err : error).

Definition loadConfig (os : OS) : Config.t + loadError :=
  match UserHomeDir os with
  | inr msg => inr (HomeError msg)
  | inl home =>
      let configPath := Join os [home; ".config"; "taskboard-mcp"; "config.json"] in
      match ReadFile os configPath with
      | inr msg => inr (ReadError msg)
      | inl data =>
          match Unmarshal "Config" (object Config.set Config.zero) data with
          | Err err => inr (ConfigError err)
          | Ok cfg => inl cfg
          end
      end
  end.

(** [transport] is the [http.Client] that the new client holds. *)
Definition NewClientFromEnv (os : OS) (transport : Log -> Outcome) : result Client :=
  let baseURL := Getenv os "TASKBOARD_URL" in
  let token := Getenv os "TASKBOARD_TOKEN" in
  let '(baseURL, token) :=
    if String.eqb baseURL "" || String.eqb token "" then
      match loadConfig os with
      | inl cfg =>
          (if String.eqb baseURL "" then Config.URL cfg else baseURL,
           if String.eqb token "" then Config.Token cfg else token)
      | inr _ => (baseURL, token)
      end
    else (baseURL, token) in
  if String.eqb baseURL "" then Err (Errorf "TASKBOARD_URL not set (env or config)")
  else if String.eqb token "" then Err (Errorf "TASKBOARD_TOKEN not set (env or config)")
  else Ok {| baseURL := TrimSuffix baseURL "/"; token := token; http := transport |}.

(** [main] from its first line: without a client the process ends before it
    reads a line. *)
Definition program `{Texts} (os : OS) (transport : Log -> Outcome)
    (lines : list string) (scanErr : option string) : IO (list Response.t * Exit) :=
  match NewClientFromEnv os transport with
  | Err err => ret ([], Fatal ("Failed to initialize TaskBoard client: " +:+ ErrorText err))
  | Ok client => main.main client lines scanErr
  end.

End startup.

(** ** Vocabulary of the further properties *)

(** What every request of the client has: the token, the content type and a
    URL under /api/ of the base URL. *)
Definition wellFormed (c : Client) (r : Request) : Prop :=
  Authorization r = "Bearer " +:+ token c
  /\ ContentType r = "application/json"
  /\ exists path, URL r = baseURL c +:+ "/api/" +:+ path.

(** A request that reads: a GET without a body. *)
Definition isRead (r : Request) : Prop := Method r = "GET" /\ Body r = None.

(** A computation adds at most [n] requests to the log, all of them with
    the property [Q], and takes none away. *)
Definition sends {A} (Q : Request -> Prop) (n : nat) (m : IO A) : Prop :=
  forall log, exists added,
    (m log).2 = log ++ added /\ (length added <= n)%nat /\ Forall Q added.

(** A failure of the last request of a computation is the error that the
    computation returns. *)
Definition passes {A} (c : Client) (m : IO (result A)) : Prop :=
  forall log r log' err,
    m log = (r, log') -> bodyOf (http c log') = Err err -> r = Err err.

(** The setting that [NewClientFromEnv] uses: the variable of the
    environment when it is set, else the field of the configuration file when
    the file could be read. *)
Definition setting (os : startup.OS) (variable : string)
    (field : startup.Config.t -> string) : string :=
  if String.eqb (startup.Getenv os variable) "" then
    match startup.loadConfig os with
    | inl cfg => field cfg
    | inr _ => ""
    end
  else startup.Getenv os variable.

(** The value that an object gives a key: the one of its last member with
    that key. *)
Fixpoint lastValue (key : string) (members : list (string * json)) : option json :=
  match members with
  | [] => None
  | (k, v) :: rest =>
      match lastValue key rest with
      | Some v' => Some v'
      | None => if String.eqb k key then Some v else None
      end
  end.

(** How often a byte occurs in a text. *)
Definition occurrences (c : ascii) (s : string) : nat :=
  length (List.filter (Ascii.eqb c) (list_ascii_of_string s)).

(** An argument is there: a string that is not empty. *)
Definition present (args : Args) (key : string) : Prop :=
  exists text, index args key = VString text /\ text <> "".

(** A tool call is refused before anything is sent: it is an error of its
    own making and the log stays as it is. *)
Definition refused (s : Server) (name : string) (args : Args) : Prop :=
  exists msg, forall log, callTool s name args log = (Err (Errorf msg), log).

(** A task with the fields of an update put in, a text as [json.Marshal]
    writes it. *)
Definition updated (t : Task.t) (p : UpdateTaskParams) : Task.t :=
  Task.mk (Task.ID t) (Task.TicketNumber t) (Task.BoardID t)
    (default (Task.Title t) (coerce <$> uTitle p))
    (default (Task.Description t) (coerce <$> uDescription p))
    (default (Task.Status t) (coerce <$> uStatus p))
    (default (Task.Priority t) (uPriority p))
    (default (Task.Assignee t) (coerce <$> uAssignee p))
    (Task.Tags t).

(** The names that the schema of a registered tool requires. *)
Definition requiredOf (name : string) : list string :=
  match find (fun tool => String.eqb (Tool.Name tool) name) registerTools with
  | Some tool => InputSchema.Required (Tool.InputSchema tool)
  | None => []
  end.

(** A computation sends at least one request. *)
Definition contacts {A} (m : IO A) : Prop :=
  forall log, exists req rest, (m log).2 = log ++ req :: rest.

(** An error that comes from the remote API: a failure of the request, an
    answer with a status of 400 or more, or a body that does not decode. *)
Definition remoteError (err : error) : Prop :=
  match err with
  | Errorf msg => exists rest, msg = "API error " +:+ rest
  | HTTPError _ | UnmarshalError _ _ => True
  end.

Definition remote {A} (m : IO (result A)) : Prop :=
  forall log err log', m log = (Err err, log') -> remoteError err.

(** A computation writes at most once: what it sends are reads, with at
    most one POST or PUT with a body among them. *)
Definition writesOnce {A} (c : Client) (m : IO A) : Prop :=
  forall log, exists reads1 write reads2,
    (m log).2 = log ++ reads1 ++ write ++ reads2
    /\ Forall isRead reads1
    /\ Forall isRead reads2
    /\ (write = []
        \/ exists method path body,
             write = [sent c method path (Some body)]
             /\ (method = "POST" \/ method = "PUT")).

(** *** Lines of standard input *)

Definition newline : string := String "010" "".

(** The lines of an input: a line ends at a line feed, and what follows the
    last line feed is a line when it is not empty. *)
Fixpoint rawLines (input : list ascii) : list (list ascii) :=
  match input with
  | [] => []
  | c :: rest =>
      if Ascii.eqb c "010" then [] :: rawLines rest
      else
        match rawLines rest with
        | [] => [[c]]
        | line :: lines => (c :: line) :: lines
        end
  end.

Definition linesOf (input : string) : list string :=
  map string_of_list_ascii (rawLines (list_ascii_of_string input)).

(** Lines put together again, each with its line feed. *)
Fixpoint unlines (lines : list string) : string :=
  match lines with
  | [] => ""
  | line :: rest => line +:+ newline +:+ unlines rest
  end.

(** A text that is one line: it has no line feed. *)
Definition oneLine (line : string) : bool := negb (contains_byte "010" line).

(** A line fits the buffer of the scanner. *)
Definition fits (line : string) : bool :=
  (Z.of_nat (String.length line) <? bufio.MaxScanTokenSize)%Z.

(** The text of a line: one carriage return at its end is dropped. *)
Definition lineText (line : string) : string :=
  string_of_list_ascii (bufio.dropCR (rev (list_ascii_of_string line))).

(** The lines before the first that does not fit. *)
Fixpoint delivered (lines : list string) : list string :=
  match lines with
  | [] => []
  | line :: rest => if fits line then line :: delivered rest else []
  end.

(** The response to a line that is not a request. *)
Definition parseError `{Texts} (line : string) : Response.t :=
  Response.mk "2.0" VNil None
    (Some (Error.mk (-32700) "Parse error" (UnmarshalErrorText "Request" line))).

(** ** Further scenarios *)

Module Scenario2.

(** A line of as many bytes as the buffer of the scanner can hold, none of
    them a line feed. *)
Definition long_line : string :=
  string_of_list_ascii (replicate (Z.to_nat bufio.MaxScanTokenSize) "!"%char).

(** Only the URL is in the environment, with a slash at its end; the token
    is in the configuration file. *)
Definition os : startup.OS :=
  {| startup.Getenv := fun name =>
       if String.eqb name "TASKBOARD_URL" then "https://board.example/" else "";
     startup.UserHomeDir := inl "/home/dev";
     startup.Join := fun parts => String.concat "/" parts;
     startup.ReadFile := fun path =>
       if String.eqb path "/home/dev/.config/taskboard-mcp/config.json"
       then inl (qq "{'url':'https://other.example','token':'s3cret'}")
       else inr "no such file" |}.

(** The lookup of a task is refused by the network. *)
Definition offline : Client :=
  {| baseURL := "https://board.example"; token := "t0k3n";
     http := fun _ => Failed "dial tcp: connection refused" |}.

Definition call_get_task : string :=
  qq "{'jsonrpc':'2.0','id':12,'method':'tools/call','params':{'name':'get_task','arguments':{'id':'abc'}}}".

(** A service that answers the POST of a comment with the comment. *)
Definition commenting : Client :=
  Scenario.service
    [ ("GET", "https://board.example/api/tasks/abc", Replied 200 (qq "{'_id':'abc'}"));
      ("POST", "https://board.example/api/tasks/abc/comments",
       Replied 201 (qq "{'_id':'c1','text':'hi','text':'hi!'}")) ].

Definition create : CreateTaskParams :=
  {| cBoardID := "b1"; cTitle := "Write the report"; cDescription := "";
     cAssignee := "julia@example.com"; cStatus := "todo"; cPriority := 2 |}.

End Scenario2.

(** ** Properties of the client *)

Section ClientProperties.

Variable c : Client.

Lemma request_sent method path body log :
  request c method path body log =
    (bodyOf (http c (log ++ [sent c method path body])), log ++ [sent c method path body]).
Proof.
  unfold request, bind, Do, ret, bodyOf, sent.
  destruct (http c _) as [msg|status respBody]; [reflexivity|].
  destruct (400 <=? status)%Z; reflexivity.
Qed.

(** One call of [GetTask] sends one or two GET requests, and its result is
    read off the answer to the last of them. *)
Lemma GetTask_reads idOrTicket log r log' :
  GetTask c idOrTicket log = (r, log') ->
  exists reads,
    log' = log ++ reads /\ lookups c idOrTicket reads /\ r = taskOf (http c log').
Proof.
  unfold GetTask, lookups, taskOf, bind, ret.
  destruct (contains_byte "-" idOrTicket); rewrite request_sent; cbv beta iota.
  - destruct (bodyOf _) as [data|err] eqn:E1.
    + destruct (UnmarshalTask data) as [task|err] eqn:E2; cbv beta iota.
      * intros [= <- <-]. eexists. split; [reflexivity|]. rewrite E1, E2. auto.
      * clear E1 E2. rewrite request_sent, <- app_assoc. cbv beta iota.
        destruct (bodyOf _) as [data'|err'] eqn:E3; cbv beta iota; intros [= <- <-];
          eexists; (split; [reflexivity|]); cbn [app] in E3; rewrite E3; auto.
    + clear E1. rewrite request_sent, <- app_assoc. cbv beta iota.
      destruct (bodyOf _) as [data'|err'] eqn:E3; cbv beta iota; intros [= <- <-];
        eexists; (split; [reflexivity|]); cbn [app] in E3; rewrite E3; auto.
  - destruct (bodyOf _) as [data|err] eqn:E1; cbv beta iota; intros [= <- <-];
      eexists; (split; [reflexivity|]); rewrite E1; auto.
Qed.

End ClientProperties.


(** C1.  [GetTask] on an identifier with a hyphen first looks the task up by
    ticket number; when that lookup fails, be it an error of the request or a
    body that does not decode, the lookup by the raw identifier follows and
    its result, success or failure, is the result.  On an identifier without
    a hyphen the lookup by identifier is the only request. *)
Theorem GetTask_ticket_then_id (c : Client) (idOrTicket : string) (log : Log) :
  let byTicket := sent c "GET" ("/api/tasks/by-ticket/" +:+ idOrTicket) None in
  let byID := sent c "GET" ("/api/tasks/" +:+ idOrTicket) None in
  GetTask c idOrTicket log =
    if contains_byte "-" idOrTicket then
      match taskOf (http c (log ++ [byTicket])) with
      | Ok task => (Ok task, log ++ [byTicket])
      | Err _ => (taskOf (http c (log ++ [byTicket; byID])), log ++ [byTicket; byID])
      end
    else (taskOf (http c (log ++ [byID])), log ++ [byID]).
Proof.
  intros byTicket byID. unfold GetTask.
  assert (Hid : forall l,
    bind (request c "GET" ("/api/tasks/" +:+ idOrTicket) None)
         (fun r => match r with
                   | Ok data => ret (UnmarshalTask data)
                   | Err err => ret (Err err)
                   end) l
    = (taskOf (http c (l ++ [byID])), l ++ [byID])).
  { intros l. unfold bind. rewrite request_sent. fold byID. unfold taskOf.
    destruct (bodyOf _); reflexivity. }
  destruct (contains_byte "-" idOrTicket); [|apply Hid].
  unfold bind at 1. rewrite request_sent. fold byTicket. unfold taskOf at 1.
  destruct (bodyOf (http c (log ++ [byTicket]))) as [data|err].
  - destruct (UnmarshalTask data); [reflexivity|].
    rewrite Hid, <- app_assoc. reflexivity.
  - rewrite Hid, <- app_assoc. reflexivity.
Qed.

(** The ticket number is answered with 404 and the identifier is known. *)
Example GetTask_falls_back :
  GetTask Scenario.fallback "MNS-42" [] =
    (Ok (Task.mk "abc" "MNS-42" "" "" "" "todo" 0 "" None),
     [sent Scenario.fallback "GET" "/api/tasks/by-ticket/MNS-42" None;
      sent Scenario.fallback "GET" "/api/tasks/MNS-42" None]).
Proof. vm_compute. reflexivity. Qed.

(** Both lookups are answered with 404: the error is the one of the lookup
    by identifier. *)
Example GetTask_fallback_fails :
  GetTask Scenario.fallback "MNS-7" [] =
    (Err (Errorf "API error 404: not found"),
     [sent Scenario.fallback "GET" "/api/tasks/by-ticket/MNS-7" None;
      sent Scenario.fallback "GET" "/api/tasks/MNS-7" None]).
Proof. vm_compute. reflexivity. Qed.

(** C2, as stated, fails: [UpdateTask] on MNS-42 succeeds against a service
    that does not know the ticket number and answers the lookup by
    identifier, with two reads before the write. *)
Lemma UpdateTask_two_resolution_reads :
  ~ three_requests Scenario.fallback "MNS-42" Scenario.completed [].
Proof.
  unfold three_requests. vm_compute.
  intros (read1 & write & read2 & Hlog & _). discriminate Hlog.
Qed.

(** C2, amended.  A successful [UpdateTask] is one [GetTask] for the
    identifier (one GET, or the GET by ticket number and then the GET by
    identifier), then one PUT for the task it resolved to, then one [GetTask]
    for that task's ID (again one or two GETs), in this order and nothing
    else; the task returned is the one decoded from the answer to the last
    request.  Where neither the identifier nor the resolved ID has a hyphen
    these are three requests. *)
Theorem UpdateTask_resolve_write_confirm (c : Client) (idOrTicket : string)
    (params : UpdateTaskParams) (log : Log) (task : Task.t) (log' : Log) :
  UpdateTask c idOrTicket params log = (Ok task, log') ->
  exists resolved reads1 reads2,
    let write := sent c "PUT" ("/api/tasks/" +:+ Task.ID resolved)
                      (Some (MarshalUpdate params)) in
    log' = log ++ reads1 ++ [write] ++ reads2 /\
    lookups c idOrTicket reads1 /\
    lookups c (Task.ID resolved) reads2 /\
    GetTask c idOrTicket log = (Ok resolved, log ++ reads1) /\
    GetTask c (Task.ID resolved) (log ++ reads1 ++ [write]) = (Ok task, log') /\
    taskOf (http c log') = Ok task /\
    (contains_byte "-" idOrTicket = false ->
     contains_byte "-" (Task.ID resolved) = false ->
     log' = log ++ [sent c "GET" ("/api/tasks/" +:+ idOrTicket) None;
                    write;
                    sent c "GET" ("/api/tasks/" +:+ Task.ID resolved) None]).
Proof.
  unfold UpdateTask, bind.
  destruct (GetTask c idOrTicket log) as [[resolved|err] log1] eqn:E1; [|discriminate].
  rewrite request_sent.
  destruct (bodyOf _) as [ack|err]; [|discriminate].
  intros E2.
  destruct (GetTask_reads _ _ _ _ _ E1) as (reads1 & -> & L1 & _).
  destruct (GetTask_reads _ _ _ _ _ E2) as (reads2 & -> & L2 & T).
  exists resolved, reads1, reads2. cbn zeta.
  rewrite <- !app_assoc in *.
  repeat split; auto.
  intros H1 H2. unfold lookups in L1, L2. rewrite H1 in L1. rewrite H2 in L2.
  subst. reflexivity.
Qed.

(** A successful update that took four requests. *)
Lemma UpdateTask_resolve_write_confirm_witness :
  exists resolved reads1 reads2,
    [sent Scenario.fallback "GET" "/api/tasks/by-ticket/MNS-42" None;
     sent Scenario.fallback "GET" "/api/tasks/MNS-42" None;
     sent Scenario.fallback "PUT" "/api/tasks/abc" (Some (MarshalUpdate Scenario.completed));
     sent Scenario.fallback "GET" "/api/tasks/abc" None]
    = [] ++ reads1 ++ [sent Scenario.fallback "PUT" ("/api/tasks/" +:+ Task.ID resolved)
                         (Some (MarshalUpdate Scenario.completed))] ++ reads2.
Proof.
  destruct (UpdateTask_resolve_write_confirm Scenario.fallback "MNS-42" Scenario.completed []
              (Task.mk "abc" "MNS-42" "" "" "" "completed" 0 "" None)
              [sent Scenario.fallback "GET" "/api/tasks/by-ticket/MNS-42" None;
               sent Scenario.fallback "GET" "/api/tasks/MNS-42" None;
               sent Scenario.fallback "PUT" "/api/tasks/abc"
                    (Some (MarshalUpdate Scenario.completed));
               sent Scenario.fallback "GET" "/api/tasks/abc" None])
    as (resolved & reads1 & reads2 & H & _).
  - vm_compute. reflexivity.
  - exists resolved, reads1, reads2. exact H.
Defined.

(** ** Properties of the dispatcher *)

Section DispatcherProperties.

Context `{Texts}.
Variable s : Server.

Lemma Handle_tools_call req :
  Request.Method req = "tools/call" -> Handle s req = handleToolsCall s req.
Proof. intros E. unfold Handle. rewrite E. reflexivity. Qed.

Lemma callTool_unknown name args :
  ~ In name toolNames ->
  callTool s name args = ret (Err (Errorf ("unknown tool: " +:+ name))).
Proof.
  intros Hname. unfold callTool.
  repeat match goal with
  | |- context [String.eqb name ?tool] =>
      destruct (String.eqb_spec name tool) as [->|_];
      [exfalso; apply Hname; vm_compute; tauto|]
  end.
  reflexivity.
Qed.

Lemma bodyOf_error status body :
  (400 <= status)%Z ->
  bodyOf (Replied status body) = Err (Errorf ("API error " +:+ itoa status +:+ ": " +:+ body)).
Proof. intros Hs. unfold bodyOf. apply Z.leb_le in Hs. rewrite Hs. reflexivity. Qed.

Lemma surfaces_decoded {A} (decode : string -> result A) method path body :
  surfaces (client s) (let* r := request (client s) method path body in
            match r with
            | Ok data => ret (decode data)
            | Err err => ret (Err err)
            end).
Proof.
  intros log r log' status respBody. unfold bind. rewrite request_sent.
  destruct (bodyOf _) as [data|err] eqn:E; intros [= <- <-] Hhttp Hs;
    rewrite Hhttp, (bodyOf_error _ _ Hs) in E; congruence.
Qed.

Lemma surfaces_GetTask idOrTicket : surfaces (client s) (GetTask (client s) idOrTicket).
Proof.
  intros log r log' status body E Hhttp Hs.
  destruct (GetTask_reads _ _ _ _ _ E) as (_ & _ & _ & ->).
  unfold taskOf. rewrite Hhttp, (bodyOf_error _ _ Hs). reflexivity.
Qed.

Lemma surfaces_UpdateTask idOrTicket params :
  surfaces (client s) (UpdateTask (client s) idOrTicket params).
Proof.
  intros log r log' status body. unfold UpdateTask, bind.
  destruct (GetTask (client s) idOrTicket log) as [[task|err] log1] eqn:E1.
  - rewrite request_sent.
    destruct (bodyOf _) as [ack|err] eqn:E2.
    + intros E3 Hhttp Hs. exact (surfaces_GetTask _ _ _ _ _ _ E3 Hhttp Hs).
    + intros [= <- <-] Hhttp Hs. rewrite Hhttp, (bodyOf_error _ _ Hs) in E2. congruence.
  - intros [= <- <-] Hhttp Hs. f_equal.
    pose proof (surfaces_GetTask _ _ _ _ _ _ E1 Hhttp Hs). congruence.
Qed.

Lemma surfaces_AddComment idOrTicket text :
  surfaces (client s) (AddComment (client s) idOrTicket text).
Proof.
  intros log r log' status body. unfold AddComment, bind.
  destruct (GetTask (client s) idOrTicket log) as [[task|err] log1] eqn:E1.
  - rewrite request_sent.
    destruct (bodyOf _) as [data|err] eqn:E2.
    + destruct (UnmarshalMap data). intros [= <- <-] Hhttp Hs.
      rewrite Hhttp, (bodyOf_error _ _ Hs) in E2. congruence.
    + intros [= <- <-] Hhttp Hs. rewrite Hhttp, (bodyOf_error _ _ Hs) in E2. congruence.
  - intros [= <- <-] Hhttp Hs. f_equal.
    pose proof (surfaces_GetTask _ _ _ _ _ _ E1 Hhttp Hs). congruence.
Qed.

Lemma surfaces_returning {A} (wrap : A -> ToolValue) (m : IO (result A)) :
  surfaces (client s) m -> surfaces (client s) (returning wrap m).
Proof.
  intros Hm log r log' status body. unfold returning, bind.
  destruct (m log) as [[a|err] log1] eqn:E; intros [= <- <-] Hhttp Hs.
  - specialize (Hm _ _ _ _ _ E Hhttp Hs). discriminate.
  - f_equal. specialize (Hm _ _ _ _ _ E Hhttp Hs). congruence.
Qed.

(** A tool call that sent a request and got a status of 400 or more for the
    last one fails with that status and body. *)
Lemma callTool_surfaces name args log r log' status body :
  callTool s name args log = (r, log') ->
  log' <> log ->
  http (client s) log' = Replied status body ->
  (400 <= status)%Z ->
  r = Err (Errorf ("API error " +:+ itoa status +:+ ": " +:+ body)).
Proof.
  intros E Hlog Hhttp Hs. revert E. unfold callTool.
  repeat match goal with
  | |- context [String.eqb name ?tool] => destruct (String.eqb name tool)
  | |- context [assert_string ?v] => destruct (assert_string v) as [? ?]
  | |- context [if ?b then _ else _] => destruct b
  end;
  try (intros [= <- <-]; congruence);
  intros E; revert E Hhttp Hs; apply surfaces_returning;
  first [ apply surfaces_GetTask | apply surfaces_UpdateTask | apply surfaces_AddComment
        | apply surfaces_decoded ].
Qed.

End DispatcherProperties.

(** C3.  A tools/call request for a name that is none of the seven
    registered tools is answered by a result and not by a JSON-RPC error:
    one block of text, Error: unknown tool: and the name, with the error
    flag set.  The remote API is not contacted. *)
Theorem unknown_tool_is_a_tool_error `{Texts} (s : Server) (req : Request.t)
    (params : CallToolParams.t) (log : Log) :
  Request.Method req = "tools/call" ->
  UnmarshalCallToolParams (Request.Params req) = Some params ->
  ~ In (CallToolParams.Name params) toolNames ->
  Handle s req log =
    (Response.mk "2.0" (Request.ID req)
       (Some (OfCallTool
                (CallToolResult.mk
                   [ContentBlock.mk "text"
                      ("Error: unknown tool: " +:+ CallToolParams.Name params)]
                   true)))
       None,
     log).
Proof.
  intros Hmethod Hparams Hname.
  rewrite Handle_tools_call by assumption.
  unfold handleToolsCall. rewrite Hparams.
  unfold bind. rewrite callTool_unknown by assumption. reflexivity.
Qed.

Lemma unknown_tool_is_a_tool_error_witness :
  @Handle Scenario.texts (NewServer Scenario.fallback) (Scenario.decoded Scenario.call_unknown) [] =
    (toolError (VFloat64 (Float64 7881299347898368 (-50))) "Error: unknown tool: nope", []).
Proof.
  apply (@unknown_tool_is_a_tool_error Scenario.texts (NewServer Scenario.fallback)
           (Scenario.decoded Scenario.call_unknown) (CallToolParams.mk "nope" (Some ∅)) []).
  - vm_compute. reflexivity.
  - vm_compute. reflexivity.
  - vm_compute. intuition discriminate.
Defined.

(** C5, as stated, fails: the text of the result has the prefix that
    [handleToolsCall] puts before every error. *)
Lemma create_task_text_has_prefix :
  resultText (@Handle Scenario.texts (NewServer Scenario.fallback)
                (Scenario.decoded Scenario.call_create_without_board) []).1
  <> Some "board_id and title are required".
Proof. vm_compute. discriminate. Qed.

(** C5, amended.  A tools/call of create_task whose board_id is absent, the
    empty string or not a string is answered by a tool error with the text
    Error: board_id and title are required, whatever the title is, and no
    request is sent to the remote API. *)
Theorem create_task_requires_board_id `{Texts} (s : Server) (req : Request.t)
    (params : CallToolParams.t) (log : Log) :
  Request.Method req = "tools/call" ->
  UnmarshalCallToolParams (Request.Params req) = Some params ->
  CallToolParams.Name params = "create_task" ->
  (forall board, index (CallToolParams.Arguments params) "board_id" = VString board ->
                 board = "") ->
  Handle s req log =
    (toolError (Request.ID req) "Error: board_id and title are required", log).
Proof.
  intros Hmethod Hparams Hname Hboard.
  rewrite Handle_tools_call by assumption.
  unfold handleToolsCall. rewrite Hparams.
  unfold bind, callTool. rewrite Hname. cbn [String.eqb Ascii.eqb Bool.eqb].
  assert (Hb : (assert_string (index (CallToolParams.Arguments params) "board_id")).1 = "").
  { destruct (index _ "board_id") as [| | |board| |] eqn:E; try reflexivity.
    apply (Hboard board eq_refl). }
  destruct (assert_string (index _ "board_id")) as [boardID ?].
  destruct (assert_string (index _ "title")) as [title ?].
  cbn in Hb. subst boardID. reflexivity.
Qed.

Lemma create_task_requires_board_id_witness :
  @Handle Scenario.texts (NewServer Scenario.fallback)
         (Scenario.decoded Scenario.call_create_without_board) [] =
    (toolError (VFloat64 (Float64 4503599627370496 (-49)))
       "Error: board_id and title are required", []).
Proof.
  apply (@create_task_requires_board_id Scenario.texts (NewServer Scenario.fallback)
           (Scenario.decoded Scenario.call_create_without_board)
           (CallToolParams.mk "create_task"
              (Some (<["title" := VString "Write the report"]> ∅))) []).
  - vm_compute. reflexivity.
  - vm_compute. reflexivity.
  - reflexivity.
  - vm_compute. discriminate.
Defined.

(** C6.  [request] turns an answer with a status of 400 or more into the
    error API error, the status, a colon and the body as it came.  Through
    tools/call: when the last request of a call is answered so, the response
    is a tool error with Error: before that message; for status 500 and the
    body internal error the text is Error: API error 500: internal error. *)
Theorem api_error_surfaces `{Texts} :
  (forall (c : Client) method path body log status respBody,
     http c (log ++ [sent c method path body]) = Replied status respBody ->
     (400 <= status)%Z ->
     request c method path body log =
       (Err (Errorf ("API error " +:+ itoa status +:+ ": " +:+ respBody)),
        log ++ [sent c method path body]))
  /\
  (forall (s : Server) (req : Request.t) log resp log' status respBody,
     Request.Method req = "tools/call" ->
     Handle s req log = (resp, log') ->
     log' <> log ->
     http (client s) log' = Replied status respBody ->
     (400 <= status)%Z ->
     resp = toolError (Request.ID req)
              ("Error: API error " +:+ itoa status +:+ ": " +:+ respBody))
  /\
  (forall (s : Server) (req : Request.t) log resp log',
     Request.Method req = "tools/call" ->
     Handle s req log = (resp, log') ->
     log' <> log ->
     http (client s) log' = Replied 500 "internal error" ->
     resp = toolError (Request.ID req) "Error: API error 500: internal error").
Proof.
  assert (Hcall : forall (s : Server) (req : Request.t) log resp log' status respBody,
     Request.Method req = "tools/call" ->
     Handle s req log = (resp, log') ->
     log' <> log ->
     http (client s) log' = Replied status respBody ->
     (400 <= status)%Z ->
     resp = toolError (Request.ID req)
              ("Error: API error " +:+ itoa status +:+ ": " +:+ respBody)).
  { intros s req log resp log' status respBody Hmethod.
    rewrite Handle_tools_call by assumption. unfold handleToolsCall.
    destruct (UnmarshalCallToolParams _) as [params|].
    - unfold bind.
      destruct (callTool s _ _ log) as [r log1] eqn:E.
      intros Hresp Hlog Hhttp Hs.
      assert (log1 = log') as -> by (destruct r; injection Hresp; auto).
      rewrite (callTool_surfaces _ _ _ _ _ _ _ _ E Hlog Hhttp Hs) in Hresp.
      injection Hresp as <-. reflexivity.
    - intros [= <- <-] Hlog. congruence. }
  split; [|split].
  - intros c method path body log status respBody Hhttp Hs.
    rewrite request_sent, Hhttp, bodyOf_error by assumption. reflexivity.
  - exact Hcall.
  - intros s req log resp log' Hmethod Hresp Hlog Hhttp.
    apply (Hcall s req log resp log' 500%Z "internal error"); auto. lia.
Qed.

Lemma api_error_surfaces_witness :
  (@Handle Scenario.texts (NewServer Scenario.broken)
     (Scenario.decoded Scenario.call_list_boards) []).1 =
    toolError (Request.ID (Scenario.decoded Scenario.call_list_boards))
      "Error: API error 500: internal error".
Proof.
  apply (proj2 (proj2 (@api_error_surfaces Scenario.texts)) (NewServer Scenario.broken)
           (Scenario.decoded Scenario.call_list_boards) [] _
           [sent Scenario.broken "GET" "/api/boards" None]).
  - vm_compute. reflexivity.
  - vm_compute. reflexivity.
  - discriminate.
  - reflexivity.
Defined.

(** ** Properties of the transport loop *)

Section LoopProperties.

Context `{Texts}.
Variable server : Server.

Lemma loop_app before after log :
  loop server (before ++ after) log =
    let '(out1, log1) := loop server before log in
    let '(out2, log2) := loop server after log1 in
    (out1 ++ out2, log2).
Proof.
  revert log. induction before as [|line before IH]; intros log; cbn [app loop].
  - unfold bind, ret. destruct (loop server after log). reflexivity.
  - unfold bind, ret. destruct (serve server line log) as [response log0].
    rewrite IH.
    destruct (loop server before log0) as [out1 log1].
    destruct (loop server after log1) as [out2 log2]. reflexivity.
Qed.

Lemma serve_refused line err log :
  UnmarshalRequest line = Err err ->
  serve server line log = (sendError VNil (-32700) "Parse error" (ErrorText err), log).
Proof. intros E. unfold serve. rewrite E. reflexivity. Qed.

Lemma Unmarshal_invalid {T} target (store : json -> option T) data :
  parse data = None -> Unmarshal target store data = Err (UnmarshalError target data).
Proof. intros E. unfold Unmarshal. rewrite E. reflexivity. Qed.

Lemma loop_cons line rest log :
  loop server (line :: rest) log =
    let '(response, log1) := serve server line log in
    let '(out, log2) := loop server rest log1 in
    (response :: out, log2).
Proof.
  cbn [loop]. unfold bind. destruct (serve server line log) as [response log1].
  destruct (loop server rest log1). reflexivity.
Qed.

End LoopProperties.


(** A line feed alone on the input is answered with a parse error. *)
Example empty_input_line :
  (@loop Scenario.texts (NewServer Scenario.fallback)
     (bufio.ScanLines (String "010" "")) []).1
  = [Response.mk "2.0" VNil None
       (Some (Error.mk (-32700) "Parse error" "json: cannot read Request"))].
Proof. vm_compute. reflexivity. Qed.

(** C9.  Whatever was served before, a tools/list request is answered with
    the registry that [NewServer] built, the seven tools in their order.  A
    server is a value that [Handle] reads and cannot change, so for any
    server the answer is its [tools]. *)
Theorem tools_list_is_the_registry `{Texts} (client : Client) (earlier : list string)
    (line : string) (req : Request.t) (log : Log) :
  UnmarshalRequest line = Ok req ->
  Request.Method req = "tools/list" ->
  loop (NewServer client) (earlier ++ [line]) log =
    (let '(out, log1) := loop (NewServer client) earlier log in
     (out ++ [Response.mk "2.0" (Request.ID req) (Some (OfToolsList registerTools)) None],
      log1))
  /\ (forall s log0,
        Handle s req log0 =
          (Response.mk "2.0" (Request.ID req) (Some (OfToolsList (tools s))) None, log0))
  /\ map Tool.Name registerTools =
       ["list_boards"; "list_tasks"; "get_task"; "create_task"; "update_task";
        "add_comment"; "list_users"].
Proof.
  intros Hline Hmethod.
  assert (Hs : forall s log0,
        Handle s req log0 =
          (Response.mk "2.0" (Request.ID req) (Some (OfToolsList (tools s))) None, log0)).
  { intros s log0. unfold Handle. rewrite Hmethod. reflexivity. }
  split; [|split; [exact Hs|reflexivity]].
  rewrite loop_app.
  destruct (loop (NewServer client) earlier log) as [out log1].
  rewrite loop_cons. unfold serve. rewrite Hline, Hs. reflexivity.
Qed.

Lemma tools_list_is_the_registry_witness :
  (@loop Scenario.texts (NewServer Scenario.fallback)
     ([Scenario.call_add_comment; "not json"] ++ [Scenario.call_tools_list]) []).1 =
  (@loop Scenario.texts (NewServer Scenario.fallback)
     [Scenario.call_add_comment; "not json"] []).1
  ++ [Response.mk "2.0" (Request.ID (Scenario.decoded Scenario.call_tools_list))
        (Some (OfToolsList registerTools)) None].
Proof.
  rewrite (proj1 (@tools_list_is_the_registry Scenario.texts Scenario.fallback
                    [Scenario.call_add_comment; "not json"] Scenario.call_tools_list
                    (Scenario.decoded Scenario.call_tools_list) []
                    ltac:(vm_compute; reflexivity) ltac:(vm_compute; reflexivity))).
  destruct (loop _ _ _). reflexivity.
Defined.

(** ** Arguments of the tools *)

Section Arguments.

Variable s : Server.

Lemma getString_index args key :
  getString args key = match index args key with VString text => text | _ => "" end.
Proof. unfold getString. destruct (index args key); reflexivity. Qed.

Lemma getStringPtr_index args key :
  getStringPtr args key = match index args key with VString text => Some text | _ => None end.
Proof. unfold getStringPtr. destruct (index args key); reflexivity. Qed.

Lemma getInt_index args key :
  getInt args key = match index args key with VFloat64 f => int_of_float64 f | _ => 0%Z end.
Proof. unfold getInt. destruct (index args key); reflexivity. Qed.

Lemma getIntPtr_index args key :
  getIntPtr args key =
    match index args key with VFloat64 f => Some (int_of_float64 f) | _ => None end.
Proof. unfold getIntPtr. destruct (index args key); reflexivity. Qed.

Lemma index_insert_ne (m : gmap string value) key v k :
  key <> k -> index (Some (<[key := v]> m)) k = index (Some (delete key m)) k.
Proof. intros Hk. unfold index. rewrite lookup_insert_ne, lookup_delete_ne by done. done. Qed.

Lemma index_insert_eq (m : gmap string value) key v :
  index (Some (<[key := v]> m)) key = v /\ index (Some (delete key m)) key = VNil.
Proof. unfold index. rewrite lookup_insert_eq, lookup_delete_eq. done. Qed.

(** A string is read from a key other than priority, a number from
    priority: a value of the wrong type is read like no value. *)
Lemma wrong_string (m : gmap string value) key v k :
  wrongType key v -> k <> "priority" ->
  assert_string (index (Some (<[key := v]> m)) k)
  = assert_string (index (Some (delete key m)) k).
Proof.
  intros Hw Hk. destruct (decide (key = k)) as [->|Hne].
  - destruct (index_insert_eq m k v) as [-> ->].
    unfold wrongType in Hw. apply String.eqb_neq in Hk. rewrite Hk in Hw.
    destruct v; try reflexivity. destruct (Hw s0 eq_refl).
  - rewrite index_insert_ne by done. reflexivity.
Qed.

Lemma wrong_number (m : gmap string value) key v :
  wrongType key v ->
  assert_float64 (index (Some (<[key := v]> m)) "priority")
  = assert_float64 (index (Some (delete key m)) "priority").
Proof.
  intros Hw. destruct (decide (key = "priority")) as [->|Hne].
  - destruct (index_insert_eq m "priority" v) as [-> ->].
    unfold wrongType in Hw. cbn in Hw.
    destruct v; try reflexivity. destruct (Hw f eq_refl).
  - rewrite index_insert_ne by done. reflexivity.
Qed.

Lemma wrong_type_is_absent name key v (m : gmap string value) :
  wrongType key v ->
  callTool s name (Some (<[key := v]> m)) = callTool s name (Some (delete key m)).
Proof.
  intros Hw. unfold callTool, getString, getStringPtr, getInt, getIntPtr.
  rewrite !(wrong_number m key v Hw).
  rewrite !(wrong_string m key v) by (assumption || discriminate).
  reflexivity.
Qed.

Lemma ListTasks_request (c : Client) boardID status assignee log :
  ListTasks c boardID status assignee log =
    let log' := log ++ [sent c "GET" (tasksPath boardID status assignee) None] in
    (match bodyOf (http c log') with
     | Ok data => UnmarshalTasks data
     | Err err => Err err
     end, log').
Proof.
  unfold ListTasks.
  match goal with
  | |- context [request c "GET" ?path None] =>
      assert (path = tasksPath boardID status assignee) as ->
  end.
  { unfold tasksPath, filters.
    destruct (String.eqb boardID ""), (String.eqb status ""), (String.eqb assignee "");
      reflexivity. }
  unfold bind. rewrite request_sent. cbn zeta.
  destruct (bodyOf _); reflexivity.
Qed.

Lemma returning_log {A} (wrap : A -> ToolValue) (m : IO (result A)) log :
  (returning wrap m log).2 = (m log).2.
Proof. unfold returning, bind. destruct (m log) as [[a|err] log']; reflexivity. Qed.

(** What [UpdateTask] sends after the resolution of the identifier: nothing
    when the resolution failed, else one PUT with the update as its body, and
    after it the GET requests of the confirmation. *)
Lemma UpdateTask_log (c : Client) idOrTicket params log :
  match GetTask c idOrTicket log with
  | (Ok task, log1) =>
      exists confirmation,
        (UpdateTask c idOrTicket params log).2
        = log1 ++ sent c "PUT" ("/api/tasks/" +:+ Task.ID task) (Some (MarshalUpdate params))
                  :: confirmation
        /\ Forall (fun r => Method r = "GET" /\ Body r = None) confirmation
  | (Err _, log1) => (UpdateTask c idOrTicket params log).2 = log1
  end.
Proof.
  unfold UpdateTask, bind.
  destruct (GetTask c idOrTicket log) as [[task|err] log1]; [|reflexivity].
  rewrite request_sent.
  destruct (bodyOf _) as [ack|err].
  - destruct (GetTask c (Task.ID task) _) as [r log2] eqn:E2.
    destruct (GetTask_reads _ _ _ _ _ E2) as (reads & -> & L & _).
    exists reads. rewrite <- app_assoc. split; [reflexivity|].
    unfold lookups in L.
    destruct (contains_byte "-" (Task.ID task)); [destruct L as [->| ->]|subst reads];
      repeat constructor.
  - exists []. split; [reflexivity|constructor].
Qed.

End Arguments.

(** C8.  An optional argument that is missing or of the wrong type is read
    as the empty string, zero or nil: a tool call with an argument of the
    wrong type is the call without that argument, so such an argument makes
    no validation error.  list_tasks validates nothing and sends a filter
    exactly for the arguments that are non-empty strings.  update_task, once
    its id is there, sends after the resolution of the id one PUT whose body
    has exactly the optional fields that are supplied with their type, and
    sends no PUT when the resolution fails.  create_task sends one POST whose
    body leaves out the optional fields that are absent, empty or zero. *)
Theorem optional_arguments_are_lenient (s : Server) :
  (forall name key v (m : gmap string value),
     wrongType key v ->
     callTool s name (Some (<[key := v]> m)) = callTool s name (Some (delete key m)))
  /\
  (forall args key,
     getString args key = match index args key with VString text => text | _ => "" end
     /\ getInt args key
        = match index args key with VFloat64 f => int_of_float64 f | _ => 0%Z end
     /\ getStringPtr args key
        = match index args key with VString text => Some text | _ => None end
     /\ getIntPtr args key
        = match index args key with VFloat64 f => Some (int_of_float64 f) | _ => None end)
  /\
  (forall args log,
     let boardID := getString args "board_id" in
     let status := getString args "status" in
     let assignee := getString args "assignee" in
     callTool s "list_tasks" args log
       = returning Tasks (ListTasks (client s) boardID status assignee) log
     /\ (callTool s "list_tasks" args log).2
        = log ++ [sent (client s) "GET" (tasksPath boardID status assignee) None])
  /\
  (forall args id,
     index args "id" = VString id -> id <> "" ->
     let body :=
       JObject (suppliedString args "title" ++ suppliedString args "description"
                ++ suppliedString args "assignee" ++ suppliedString args "status"
                ++ suppliedInt args "priority") in
     (exists params,
        callTool s "update_task" args = returning TaskPtr (UpdateTask (client s) id params)
        /\ MarshalUpdate params = body)
     /\ forall log,
          match GetTask (client s) id log with
          | (Ok task, log1) =>
              exists confirmation,
                (callTool s "update_task" args log).2
                = log1 ++ sent (client s) "PUT" ("/api/tasks/" +:+ Task.ID task) (Some body)
                          :: confirmation
                /\ Forall isRead confirmation
          | (Err _, log1) => (callTool s "update_task" args log).2 = log1
          end)
  /\
  (forall args boardID title,
     index args "board_id" = VString boardID -> boardID <> "" ->
     index args "title" = VString title -> title <> "" ->
     let body :=
       JObject ([("boardId", JText boardID); ("title", JText title)]
                ++ omitempty_string "description" (getString args "description")
                ++ omitempty_string "assignee" (getString args "assignee")
                ++ omitempty_string "status" (getString args "status")
                ++ omitempty_int "priority" (getInt args "priority")) in
     (exists params,
        callTool s "create_task" args = returning TaskPtr (CreateTask (client s) params)
        /\ MarshalCreate params = body)
     /\ forall log,
          (callTool s "create_task" args log).2
          = log ++ [sent (client s) "POST" "/api/tasks" (Some body)]).
Proof.
  split; [exact (wrong_type_is_absent s)|].
  split; [intros args key; auto using getString_index, getInt_index,
                                      getStringPtr_index, getIntPtr_index|].
  split; [|split].
  - intros args log boardID status assignee.
    assert (E : callTool s "list_tasks" args log
                = returning Tasks (ListTasks (client s) boardID status assignee) log).
    { unfold callTool, boardID, status, assignee, getString.
      cbn [String.eqb Ascii.eqb Bool.eqb].
      destruct (assert_string (index args "board_id")),
               (assert_string (index args "status")),
               (assert_string (index args "assignee")). reflexivity. }
    split; [exact E|]. rewrite E. unfold returning, bind.
    rewrite ListTasks_request. cbn zeta.
    destruct (bodyOf _) as [data|err]; [destruct (UnmarshalTasks data)|]; reflexivity.
  - intros args id Hid Hne body.
    assert (Hcall : exists params,
              callTool s "update_task" args
              = returning TaskPtr (UpdateTask (client s) id params)
              /\ MarshalUpdate params = body).
    { eexists. split.
      + unfold callTool. cbn [String.eqb Ascii.eqb Bool.eqb]. rewrite Hid.
        cbn [assert_string]. apply String.eqb_neq in Hne. rewrite Hne. reflexivity.
      + unfold body, MarshalUpdate, suppliedString, suppliedInt.
        cbn [uTitle uDescription uAssignee uStatus uPriority].
        rewrite !getStringPtr_index, getIntPtr_index.
        destruct (index args "title"), (index args "description"), (index args "assignee"),
                 (index args "status"), (index args "priority"); reflexivity. }
    split; [exact Hcall|].
    destruct Hcall as (params & -> & <-). intros log. rewrite returning_log.
    exact (UpdateTask_log (client s) id params log).
  - intros args boardID title Hb Hbne Ht Htne body.
    assert (Hcall : exists params,
              callTool s "create_task" args
              = returning TaskPtr (CreateTask (client s) params)
              /\ MarshalCreate params = body).
    { eexists. split.
      + unfold callTool. cbn [String.eqb Ascii.eqb Bool.eqb]. rewrite Hb, Ht.
        cbn [assert_string]. apply String.eqb_neq in Hbne, Htne. rewrite Hbne, Htne.
        reflexivity.
      + reflexivity. }
    split; [exact Hcall|].
    destruct Hcall as (params & -> & <-). intros log. rewrite returning_log.
    unfold CreateTask, bind. rewrite request_sent.
    destruct (bodyOf _); reflexivity.
Qed.

Lemma optional_arguments_are_lenient_witness :
  callTool (NewServer Scenario.fallback) "list_tasks"
    (Some (<["board_id" := VFloat64 (Float64 7 0)]> ∅))
  = callTool (NewServer Scenario.fallback) "list_tasks" (Some (delete "board_id" ∅)).
Proof.
  apply (proj1 (optional_arguments_are_lenient (NewServer Scenario.fallback))).
  vm_compute. discriminate.
Defined.

(** ** Decoding errors of the client's methods *)

Section DecodingErrors.

Variable c : Client.

(** Five methods return what [json.Unmarshal] returns for the body,
    its error included. *)
Lemma decode_error_is_returned log status data :
  (status < 400)%Z ->
  (http c (log ++ [sent c "GET" "/api/boards" None]) = Replied status data ->
   ListBoards c log = (UnmarshalBoards data, log ++ [sent c "GET" "/api/boards" None]))
  /\
  (http c (log ++ [sent c "GET" "/api/users" None]) = Replied status data ->
   ListUsers c log = (UnmarshalUsers data, log ++ [sent c "GET" "/api/users" None]))
  /\
  (forall boardID st assignee,
     http c (log ++ [sent c "GET" (tasksPath boardID st assignee) None])
       = Replied status data ->
     ListTasks c boardID st assignee log =
       (UnmarshalTasks data, log ++ [sent c "GET" (tasksPath boardID st assignee) None]))
  /\
  (forall params,
     http c (log ++ [sent c "POST" "/api/tasks" (Some (MarshalCreate params))])
       = Replied status data ->
     CreateTask c params log =
       (UnmarshalTask data, log ++ [sent c "POST" "/api/tasks" (Some (MarshalCreate params))]))
  /\
  (forall id,
     contains_byte "-" id = false ->
     http c (log ++ [sent c "GET" ("/api/tasks/" +:+ id) None]) = Replied status data ->
     GetTask c id log = (UnmarshalTask data, log ++ [sent c "GET" ("/api/tasks/" +:+ id) None])).
Proof.
  intros Hs. apply Z.leb_gt in Hs.
  repeat split.
  - intros E. unfold ListBoards, bind. rewrite request_sent, E. unfold bodyOf. rewrite Hs.
    reflexivity.
  - intros E. unfold ListUsers, bind. rewrite request_sent, E. unfold bodyOf. rewrite Hs.
    reflexivity.
  - intros boardID st assignee E. rewrite ListTasks_request. cbn zeta. rewrite E.
    unfold bodyOf. rewrite Hs. reflexivity.
  - intros params E. unfold CreateTask, bind. rewrite request_sent, E. unfold bodyOf.
    rewrite Hs. reflexivity.
  - intros id Hid E. unfold GetTask, bind. rewrite Hid, request_sent, E. unfold bodyOf.
    rewrite Hs. reflexivity.
Qed.

(** [AddComment] returns without an error whatever the body of the answer
    to its POST is. *)
Lemma AddComment_ignores_decode_error idOrTicket text log task log1 status data :
  GetTask c idOrTicket log = (Ok task, log1) ->
  let post := sent c "POST" ("/api/tasks/" +:+ Task.ID task +:+ "/comments")
                   (Some (MarshalComment {| Text := text |})) in
  http c (log1 ++ [post]) = Replied status data ->
  (status < 400)%Z ->
  AddComment c idOrTicket text log = (Ok (UnmarshalMap data).1, log1 ++ [post]).
Proof.
  intros E1 post E2 Hs. apply Z.leb_gt in Hs.
  unfold AddComment, bind. rewrite E1, request_sent. fold post. rewrite E2.
  unfold bodyOf. rewrite Hs. destruct (UnmarshalMap data). reflexivity.
Qed.

End DecodingErrors.

(** C7.  Every method is to turn a body that does not decode into a failure
    that carries the cause; add_comment does not.  The service answers the
    POST of the comment with status 200 and the body OK, which is not JSON:
    [json.Unmarshal] reports an error for it, [AddComment] returns a nil map
    and no error, and the tool call is answered as a success. *)
Theorem AddComment_drops_decode_error :
  let served := AddComment Scenario.fallback "abc" "hi" [] in
  http Scenario.fallback served.2 = Replied 200 "OK"
  /\ parse "OK" = None
  /\ (UnmarshalMap "OK").2 = Some (UnmarshalError "map[string]interface {}" "OK")
  /\ served.1 = Ok None
  /\ (@Handle Scenario.texts (NewServer Scenario.fallback)
        (Scenario.decoded Scenario.call_add_comment) []).1
     = Response.mk "2.0" (Request.ID (Scenario.decoded Scenario.call_add_comment))
         (Some (OfCallTool
                  (CallToolResult.mk
                     [ContentBlock.mk "text" (@MarshalIndent Scenario.texts (Comment None))]
                     false)))
         None.
Proof. vm_compute. repeat split; reflexivity. Qed.

(** ** The requests that a tool call sends *)

Section Sends.

Variable c : Client.
Variable Q : Request -> Prop.

Lemma sends_ret {A} (a : A) n : sends Q n (ret a).
Proof.
  intros log. exists []. cbn. rewrite app_nil_r. repeat split; [lia|constructor].
Qed.

Lemma sends_weaken {A} n n' (m : IO A) : (n <= n')%nat -> sends Q n m -> sends Q n' m.
Proof.
  intros Hn Hm log. destruct (Hm log) as (added & E & Hlen & HQ).
  exists added. repeat split; [assumption|lia|assumption].
Qed.

Lemma sends_bind {A B} n1 n2 (m : IO A) (k : A -> IO B) :
  sends Q n1 m -> (forall a, sends Q n2 (k a)) -> sends Q (n1 + n2) (bind m k).
Proof.
  intros Hm Hk log. unfold bind.
  destruct (Hm log) as (added1 & E1 & Hlen1 & HQ1).
  destruct (m log) as [a log1]. cbn in E1. subst log1.
  destruct (Hk a (log ++ added1)) as (added2 & E2 & Hlen2 & HQ2).
  exists (added1 ++ added2). rewrite E2, app_assoc, length_app.
  repeat split; [lia|]. apply Forall_app. split; assumption.
Qed.

Lemma sends_request method path body :
  Q (sent c method path body) -> sends Q 1 (request c method path body).
Proof.
  intros HQ log. rewrite request_sent. exists [sent c method path body].
  repeat split; [cbn; lia|]. constructor; [assumption|constructor].
Qed.

Lemma sends_decoded {A} (decode : string -> result A) method path body :
  Q (sent c method path body) ->
  sends Q 1 (let* r := request c method path body in
             match r with
             | Ok data => ret (decode data)
             | Err err => ret (Err err)
             end).
Proof.
  intros HQ. apply (sends_bind 1 0); [apply sends_request, HQ|].
  intros [data|err]; apply sends_ret.
Qed.

Hypothesis get_tasks : forall path, Q (sent c "GET" ("/api/tasks/" +:+ path) None).

Lemma sends_GetTask idOrTicket : sends Q 2 (GetTask c idOrTicket).
Proof.
  unfold GetTask.
  assert (HbyID : sends Q 1
            (let* r := request c "GET" ("/api/tasks/" +:+ idOrTicket) None in
             match r with
             | Ok data => ret (UnmarshalTask data)
             | Err err => ret (Err err)
             end)) by apply sends_decoded, get_tasks.
  destruct (contains_byte "-" idOrTicket).
  - apply (sends_bind 1 1).
    + apply sends_request. apply (get_tasks ("by-ticket/" +:+ idOrTicket)).
    + intros [data|err]; [destruct (UnmarshalTask data)|]; try exact HbyID.
      apply (sends_weaken 0); [lia|apply sends_ret].
  - apply (sends_weaken 1); [lia|exact HbyID].
Qed.

Lemma sends_UpdateTask idOrTicket params :
  (forall path body, Q (sent c "PUT" ("/api/tasks/" +:+ path) (Some body))) ->
  sends Q 5 (UpdateTask c idOrTicket params).
Proof.
  intros put. unfold UpdateTask.
  apply (sends_bind 2 3); [apply sends_GetTask|].
  intros [task|err]; [|apply sends_ret].
  apply (sends_bind 1 2); [apply sends_request, put|].
  intros [ack|err]; [apply sends_GetTask|apply sends_ret].
Qed.

Lemma sends_AddComment idOrTicket text :
  (forall path body, Q (sent c "POST" ("/api/tasks/" +:+ path) (Some body))) ->
  sends Q 3 (AddComment c idOrTicket text).
Proof.
  intros post. unfold AddComment.
  apply (sends_bind 2 1); [apply sends_GetTask|].
  intros [task|err]; [|apply (sends_weaken 0); [lia|apply sends_ret]].
  apply (sends_bind 1 0); [apply sends_request, post|].
  intros [data|err]; [destruct (UnmarshalMap data)|]; apply sends_ret.
Qed.

Lemma sends_ListTasks boardID status assignee :
  Q (sent c "GET" (tasksPath boardID status assignee) None) ->
  sends Q 1 (ListTasks c boardID status assignee).
Proof.
  intros HQ log. rewrite ListTasks_request. cbn zeta.
  exists [sent c "GET" (tasksPath boardID status assignee) None].
  repeat split; [cbn; lia|]. constructor; [assumption|constructor].
Qed.

Lemma sends_returning {A} (wrap : A -> ToolValue) n (m : IO (result A)) :
  sends Q n m -> sends Q n (returning wrap m).
Proof.
  intros Hm. unfold returning. replace n with (n + 0)%nat by lia.
  apply sends_bind; [assumption|]. intros [a|err]; apply sends_ret.
Qed.

End Sends.

Lemma wellFormed_sent (c : Client) method path body :
  wellFormed c (sent c method ("/api/" +:+ path) body).
Proof. repeat split. exists path. reflexivity. Qed.

Lemma wellFormed_tasksPath (c : Client) boardID status assignee :
  wellFormed c (sent c "GET" (tasksPath boardID status assignee) None).
Proof.
  unfold tasksPath. destruct (filters boardID status assignee) as [|pair query].
  - apply (wellFormed_sent c "GET" "tasks").
  - apply (wellFormed_sent c "GET" ("tasks?" +:+ url.Encode (pair :: query))).
Qed.

Lemma callTool_sends_well_formed (s : Server) name args :
  sends (wellFormed (client s)) 5 (callTool s name args).
Proof.
  pose proof (fun path => wellFormed_sent (client s) "GET" ("tasks/" +:+ path) None) as Hget.
  unfold callTool.
  repeat match goal with
  | |- context [String.eqb name ?tool] => destruct (String.eqb name tool)
  | |- context [assert_string ?v] => destruct (assert_string v) as [? ?]
  | |- context [if ?b then _ else _] => destruct b
  end;
  try (apply (sends_weaken _ 0); [lia|apply sends_ret]);
  apply sends_returning.
  - apply (sends_weaken _ 1); [lia|]. apply sends_decoded, (wellFormed_sent _ "GET" "boards").
  - apply (sends_weaken _ 1); [lia|]. apply sends_ListTasks, wellFormed_tasksPath.
  - apply (sends_weaken _ 2); [lia|]. apply sends_GetTask, Hget.
  - apply (sends_weaken _ 1); [lia|]. apply sends_decoded, (wellFormed_sent _ "POST" "tasks").
  - apply sends_UpdateTask; [exact Hget|].
    intros path body. apply (wellFormed_sent _ "PUT" ("tasks/" +:+ path)).
  - apply (sends_weaken _ 3); [lia|]. apply sends_AddComment; [exact Hget|].
    intros path body. apply (wellFormed_sent _ "POST" ("tasks/" +:+ path)).
  - apply (sends_weaken _ 1); [lia|]. apply sends_decoded, (wellFormed_sent _ "GET" "users").
Qed.

(** X1.  Whatever the request and whatever the service answers, [Handle]
    only adds to the log, at most five requests, and each of them carries the
    token of the client as a bearer token, the JSON content type and a URL
    under /api/ of the base URL.  A method other than tools/call sends
    nothing. *)
Theorem requests_are_well_formed `{Texts} (s : Server) (req : Request.t) (log : Log) :
  exists added,
    (Handle s req log).2 = log ++ added
    /\ (length added <= 5)%nat
    /\ Forall (wellFormed (client s)) added
    /\ (Request.Method req <> "tools/call" -> added = []).
Proof.
  unfold Handle.
  destruct (String.eqb_spec (Request.Method req) "initialize");
    [exists []; cbn; rewrite app_nil_r; repeat split; (lia || constructor)|].
  destruct (String.eqb_spec (Request.Method req) "initialized");
    [exists []; cbn; rewrite app_nil_r; repeat split; (lia || constructor)|].
  destruct (String.eqb_spec (Request.Method req) "tools/list");
    [exists []; cbn; rewrite app_nil_r; repeat split; (lia || constructor)|].
  destruct (String.eqb_spec (Request.Method req) "tools/call") as [Hcall|];
    [|exists []; cbn; rewrite app_nil_r; repeat split; (lia || constructor)].
  unfold handleToolsCall.
  destruct (UnmarshalCallToolParams _) as [params|];
    [|exists []; cbn; rewrite app_nil_r; repeat split; (lia || constructor || congruence)].
  unfold bind.
  destruct (callTool_sends_well_formed s (CallToolParams.Name params)
              (CallToolParams.Arguments params) log) as (added & E & Hlen & HQ).
  destruct (callTool s _ _ log) as [[result|err] log1]; cbn in E; subst log1;
    exists added; repeat split; (assumption || congruence).
Qed.

(** X2.  The four tools that read (list_boards, list_tasks, get_task and
    list_users) send at most two requests, all of them GET requests without
    a body. *)
Theorem reading_tools_only_read (s : Server) (name : string) (args : Args) (log : Log) :
  In name ["list_boards"; "list_tasks"; "get_task"; "list_users"] ->
  exists added,
    (callTool s name args log).2 = log ++ added
    /\ (length added <= 2)%nat
    /\ Forall isRead added.
Proof.
  assert (Hread : forall path, isRead (sent (client s) "GET" path None))
    by (intros path; split; reflexivity).
  intros Hname. revert log.
  change (sends isRead 2 (callTool s name args)).
  cbn in Hname. destruct Hname as [<-|[<-|[<-|[<-|[]]]]]; unfold callTool;
    cbn [String.eqb Ascii.eqb Bool.eqb].
  - apply sends_returning, (sends_weaken _ 1); [lia|]. apply sends_decoded, Hread.
  - destruct (assert_string _), (assert_string _), (assert_string _).
    apply sends_returning, (sends_weaken _ 1); [lia|]. apply sends_ListTasks, Hread.
  - destruct (assert_string _) as [id ok].
    destruct (negb ok || String.eqb id "");
      [apply (sends_weaken _ 0); [lia|apply sends_ret]|].
    apply sends_returning, sends_GetTask. intros path. apply Hread.
  - apply sends_returning, (sends_weaken _ 1); [lia|]. apply sends_decoded, Hread.
Qed.

Lemma reading_tools_only_read_witness :
  exists added,
    (callTool (NewServer Scenario.fallback) "get_task"
       (Some (<["id" := VString "MNS-42"]> ∅)) []).2 = [] ++ added
    /\ (length added <= 2)%nat
    /\ Forall isRead added.
Proof.
  apply (reading_tools_only_read (NewServer Scenario.fallback) "get_task").
  cbn. tauto.
Defined.

(** ** The envelope of a response *)

(** The four methods of the protocol. *)
Lemma Handle_methods `{Texts} (s : Server) (req : Request.t) (log : Log) :
  let method := Request.Method req in
  (method = "initialize" /\ Handle s req log = (handleInitialize s req, log))
  \/ (method = "initialized"
      /\ Handle s req log = (Response.mk "2.0" (Request.ID req) None None, log))
  \/ (method = "tools/list" /\ Handle s req log = (handleToolsList s req, log))
  \/ (method = "tools/call" /\ Handle s req log = handleToolsCall s req log)
  \/ (~ In method ["initialize"; "initialized"; "tools/list"; "tools/call"]
      /\ Handle s req log =
           (Response.mk "2.0" (Request.ID req) None
              (Some (Error.mk (-32601) "Method not found" "")), log)).
Proof.
  cbn zeta. unfold Handle.
  destruct (String.eqb_spec (Request.Method req) "initialize") as [E|N1]; [auto|].
  destruct (String.eqb_spec (Request.Method req) "initialized") as [E|N2]; [auto|].
  destruct (String.eqb_spec (Request.Method req) "tools/list") as [E|N3]; [auto|].
  destruct (String.eqb_spec (Request.Method req) "tools/call") as [E|N4]; [auto 6|].
  do 4 right. split; [|reflexivity]. cbn. intuition congruence.
Qed.

Lemma Handle_envelope `{Texts} (s : Server) (req : Request.t) (log : Log) :
  Response.JSONRPC (Handle s req log).1 = "2.0"
  /\ Response.ID (Handle s req log).1 = Request.ID req.
Proof.
  destruct (Handle_methods s req log) as [[M E]|[[M E]|[[M E]|[[M E]|[M E]]]]];
    rewrite E; try (split; reflexivity).
  unfold handleToolsCall.
  destruct (UnmarshalCallToolParams _) as [params|]; [|split; reflexivity].
  unfold bind. destruct (callTool s _ _ log) as [[result|err] log1]; split; reflexivity.
Qed.

(** X3.  A response carries a JSON-RPC error in two cases only: the method is
    none of the four of the protocol (-32601), or it is tools/call and its
    params do not decode (-32602).  Such a response has no result and nothing
    was sent for it.  A response without result and without error is the
    answer to initialized, and to nothing else. *)
Theorem protocol_errors `{Texts} (s : Server) (req : Request.t) (log : Log) :
  let resp := (Handle s req log).1 in
  let method := Request.Method req in
  (Response.Error resp = Some (Error.mk (-32601) "Method not found" "")
   <-> ~ In method ["initialize"; "initialized"; "tools/list"; "tools/call"])
  /\ (Response.Error resp = Some (Error.mk (-32602) "Invalid params" "")
      <-> method = "tools/call" /\ UnmarshalCallToolParams (Request.Params req) = None)
  /\ (forall e, Response.Error resp = Some e ->
        (Error.Code e = (-32601)%Z \/ Error.Code e = (-32602)%Z)
        /\ Response.Result resp = None
        /\ (Handle s req log).2 = log)
  /\ (Response.Result resp = None /\ Response.Error resp = None <-> method = "initialized").
Proof.
  cbn zeta.
  assert (Hin : forall m, In m ["initialize"; "initialized"; "tools/list"; "tools/call"] ->
                forall N : ~ In m ["initialize"; "initialized"; "tools/list"; "tools/call"],
                False) by (intros m Hm N; exact (N Hm)).
  destruct (Handle_methods s req log) as [[M E]|[[M E]|[[M E]|[[M E]|[M E]]]]];
    cbn zeta in M; rewrite E; clear E.
  - rewrite M. cbn.
    split; [split; [discriminate|intros N; destruct (Hin "initialize"); cbn; auto]|].
    split; [split; [discriminate|intros [E _]; discriminate E]|].
    split; [discriminate|].
    split; [intros [E _]; discriminate E|discriminate].
  - rewrite M. cbn.
    split; [split; [discriminate|intros N; destruct (Hin "initialized"); cbn; auto]|].
    split; [split; [discriminate|intros [E _]; discriminate E]|].
    split; [discriminate|].
    split; [reflexivity|split; reflexivity].
  - rewrite M. cbn.
    split; [split; [discriminate|intros N; destruct (Hin "tools/list"); cbn; auto]|].
    split; [split; [discriminate|intros [E _]; discriminate E]|].
    split; [discriminate|].
    split; [intros [E _]; discriminate E|discriminate].
  - rewrite M. unfold handleToolsCall.
    destruct (UnmarshalCallToolParams _) as [params|].
    + unfold bind. destruct (callTool s _ _ log) as [[result|err] log1]; cbn.
      * split; [split; [discriminate|intros N; destruct (Hin "tools/call"); cbn; auto 6]|].
        split; [split; [discriminate|intros [_ E]; discriminate E]|].
        split; [discriminate|].
        split; [intros [E _]; discriminate E|discriminate].
      * split; [split; [discriminate|intros N; destruct (Hin "tools/call"); cbn; auto 6]|].
        split; [split; [discriminate|intros [_ E]; discriminate E]|].
        split; [discriminate|].
        split; [intros [E _]; discriminate E|discriminate].
    + cbn.
      split; [split; [discriminate|intros N; destruct (Hin "tools/call"); cbn; auto 6]|].
      split; [split; [split; reflexivity|reflexivity]|].
      split; [intros e [= <-]; cbn; auto|].
      split; [intros [_ E]; discriminate E|discriminate].
  - cbn [fst snd Response.Error Response.Result].
    split; [split; [intros _; exact M|reflexivity]|].
    split; [split; [discriminate|intros [E _]; destruct M; rewrite E; cbn; auto 6]|].
    split; [intros e [= <-]; cbn; auto|].
    split; [intros [_ E]; discriminate E|intros E; destruct M; rewrite E; cbn; auto].
Qed.

(** The loop prints one response for each line that it is given, in the
    order of the lines. *)
Lemma loop_answers `{Texts} (server : Server) (lines : list string) (log : Log) :
  Forall2
    (fun line resp =>
       Response.JSONRPC resp = "2.0"
       /\ match UnmarshalRequest line with
          | Ok req => Response.ID resp = Request.ID req
          | Err err =>
              resp = Response.mk "2.0" VNil None
                       (Some (Error.mk (-32700) "Parse error" (ErrorText err)))
          end)
    lines (loop server lines log).1.
Proof.
  revert log. induction lines as [|line lines IH]; intros log.
  - constructor.
  - rewrite loop_cons.
    destruct (serve server line log) as [response log1] eqn:E.
    specialize (IH log1). destruct (loop server lines log1) as [out log2].
    constructor; [|exact IH].
    unfold serve in E. destruct (UnmarshalRequest line) as [req|err].
    + pose proof (Handle_envelope server req log) as [Hv Hid].
      rewrite E in Hv, Hid. split; assumption.
    + injection E as <- _. split; reflexivity.
Qed.

(** ** The answer to the last request *)

Section LastAnswer.

Variable c : Client.

Lemma taskOf_failure o err : bodyOf o = Err err -> taskOf o = Err err.
Proof. intros E. unfold taskOf. rewrite E. reflexivity. Qed.

Lemma UpdateTask_last idOrTicket params log :
  (UpdateTask c idOrTicket params log).1
  = taskOf (http c (UpdateTask c idOrTicket params log).2).
Proof.
  unfold UpdateTask, bind.
  destruct (GetTask c idOrTicket log) as [[task|err] log1] eqn:E1.
  - rewrite request_sent.
    destruct (bodyOf _) as [ack|err] eqn:E2.
    + destruct (GetTask c (Task.ID task) _) as [r log2] eqn:E3.
      destruct (GetTask_reads _ _ _ _ _ E3) as (_ & _ & _ & ->). reflexivity.
    + cbn. symmetry. apply taskOf_failure, E2.
  - destruct (GetTask_reads _ _ _ _ _ E1) as (_ & _ & _ & E). exact E.
Qed.

Lemma passes_decoded {A} (decode : string -> result A) method path body :
  passes c (let* r := request c method path body in
            match r with
            | Ok data => ret (decode data)
            | Err err => ret (Err err)
            end).
Proof.
  intros log r log' err. unfold bind. rewrite request_sent.
  destruct (bodyOf _) as [data|err'] eqn:E; intros [= <- <-] E'; congruence.
Qed.

Lemma passes_GetTask idOrTicket : passes c (GetTask c idOrTicket).
Proof.
  intros log r log' err E E'.
  destruct (GetTask_reads _ _ _ _ _ E) as (_ & _ & _ & ->).
  apply taskOf_failure, E'.
Qed.

Lemma passes_UpdateTask idOrTicket params : passes c (UpdateTask c idOrTicket params).
Proof.
  intros log r log' err E E'.
  pose proof (UpdateTask_last idOrTicket params log) as L. rewrite E in L. cbn in L.
  rewrite L. apply taskOf_failure, E'.
Qed.

Lemma passes_ListTasks boardID status assignee :
  passes c (ListTasks c boardID status assignee).
Proof.
  intros log r log' err. rewrite ListTasks_request. cbn zeta.
  intros [= <- <-] E'. rewrite E'. reflexivity.
Qed.

Lemma passes_AddComment idOrTicket text : passes c (AddComment c idOrTicket text).
Proof.
  intros log r log' err. unfold AddComment, bind.
  destruct (GetTask c idOrTicket log) as [[task|err'] log1] eqn:E1.
  - rewrite request_sent.
    destruct (bodyOf _) as [data|err'] eqn:E2.
    + destruct (UnmarshalMap data). intros [= <- <-] E'. congruence.
    + intros [= <- <-] E'. congruence.
  - intros [= <- <-] E'. f_equal.
    pose proof (passes_GetTask _ _ _ _ _ E1 E'). congruence.
Qed.

Lemma passes_returning {A} (wrap : A -> ToolValue) (m : IO (result A)) :
  passes c m -> passes c (returning wrap m).
Proof.
  intros Hm log r log' err. unfold returning, bind.
  destruct (m log) as [[a|err'] log1] eqn:E; intros [= <- <-] E'.
  - specialize (Hm _ _ _ _ E E'). discriminate.
  - f_equal. specialize (Hm _ _ _ _ E E'). congruence.
Qed.

End LastAnswer.

Lemma callTool_passes (s : Server) name args log r log' err :
  callTool s name args log = (r, log') ->
  log' <> log ->
  bodyOf (http (client s) log') = Err err ->
  r = Err err.
Proof.
  intros E Hlog E'. revert E. unfold callTool.
  repeat match goal with
  | |- context [String.eqb name ?tool] => destruct (String.eqb name tool)
  | |- context [assert_string ?v] => destruct (assert_string v) as [? ?]
  | |- context [if ?b then _ else _] => destruct b
  end;
  try (intros [= <- <-]; congruence);
  intros E; revert E E'; apply passes_returning;
  first [ apply passes_GetTask | apply passes_UpdateTask | apply passes_AddComment
        | apply passes_ListTasks | apply passes_decoded ].
Qed.

(** X5.  When the last request of a tool call fails before there is an
    answer (the connection, the URL, the reading of the body), the tool call
    is answered by a tool error whose text is Error: and the message of that
    failure. *)
Theorem transport_failure_surfaces `{Texts} (s : Server) (req : Request.t)
    (log : Log) (resp : Response.t) (log' : Log) (msg : string) :
  Request.Method req = "tools/call" ->
  Handle s req log = (resp, log') ->
  log' <> log ->
  http (client s) log' = Failed msg ->
  resp = toolError (Request.ID req) ("Error: " +:+ msg).
Proof.
  intros Hmethod. rewrite Handle_tools_call by assumption. unfold handleToolsCall.
  destruct (UnmarshalCallToolParams _) as [params|].
  - unfold bind. destruct (callTool s _ _ log) as [r log1] eqn:E.
    intros Hresp Hlog Hhttp.
    assert (log1 = log') as -> by (destruct r; injection Hresp; auto).
    rewrite (callTool_passes _ _ _ _ _ _ (HTTPError msg) E Hlog) in Hresp
      by (rewrite Hhttp; reflexivity).
    injection Hresp as <-. reflexivity.
  - intros [= <- <-] Hlog. congruence.
Qed.

Lemma transport_failure_surfaces_witness :
  (@Handle Scenario.texts (NewServer Scenario2.offline)
     (Scenario.decoded Scenario2.call_get_task) []).1
  = toolError (Request.ID (Scenario.decoded Scenario2.call_get_task))
      "Error: dial tcp: connection refused".
Proof.
  apply (@transport_failure_surfaces Scenario.texts (NewServer Scenario2.offline)
           (Scenario.decoded Scenario2.call_get_task) [] _
           [sent Scenario2.offline "GET" "/api/tasks/abc" None]).
  - vm_compute. reflexivity.
  - vm_compute. reflexivity.
  - discriminate.
  - reflexivity.
Defined.

(** X6.  What [GetTask], [CreateTask] and [UpdateTask] return, a task or an
    error, is always read off the answer to the last request they sent: the
    error of that request if it failed, else what its body decodes to as a
    task. *)
Theorem task_methods_return_the_last_answer (c : Client) (log : Log) :
  (forall idOrTicket,
     (GetTask c idOrTicket log).1 = taskOf (http c (GetTask c idOrTicket log).2))
  /\ (forall params,
        (CreateTask c params log).1 = taskOf (http c (CreateTask c params log).2))
  /\ (forall idOrTicket params,
        (UpdateTask c idOrTicket params log).1
        = taskOf (http c (UpdateTask c idOrTicket params log).2)).
Proof.
  split; [|split].
  - intros idOrTicket. destruct (GetTask c idOrTicket log) as [r log'] eqn:E.
    destruct (GetTask_reads _ _ _ _ _ E) as (_ & _ & _ & ->). reflexivity.
  - intros params. unfold CreateTask, bind. rewrite request_sent. unfold taskOf.
    destruct (bodyOf _) as [data|err] eqn:E; cbn; rewrite E; reflexivity.
  - intros idOrTicket params. apply UpdateTask_last.
Qed.

(** X7.  [UpdateTask] writes only after it has resolved the identifier.  When
    the resolution fails its error is returned and all that was sent are the
    GET requests of the resolution.  When it succeeds one PUT for the
    resolved ID follows it; a PUT that fails is the end, with its error, and
    all that follows a PUT are the GET requests of the confirmation. *)
Theorem UpdateTask_writes_after_resolution (c : Client) (idOrTicket : string)
    (params : UpdateTaskParams) (log : Log) :
  match GetTask c idOrTicket log with
  | (Err err, log1) =>
      UpdateTask c idOrTicket params log = (Err err, log1)
      /\ exists reads, log1 = log ++ reads /\ Forall isRead reads
  | (Ok task, log1) =>
      let put := sent c "PUT" ("/api/tasks/" +:+ Task.ID task)
                      (Some (MarshalUpdate params)) in
      exists reads,
        (UpdateTask c idOrTicket params log).2 = log1 ++ put :: reads
        /\ Forall isRead reads
        /\ (forall err, bodyOf (http c (log1 ++ [put])) = Err err ->
              UpdateTask c idOrTicket params log = (Err err, log1 ++ [put]))
  end.
Proof.
  assert (Hreads : forall id reads, lookups c id reads -> Forall isRead reads).
  { intros id reads. unfold lookups.
    destruct (contains_byte "-" id); [intros [->| ->]|intros ->];
      repeat constructor. }
  unfold UpdateTask, bind.
  destruct (GetTask c idOrTicket log) as [[task|err] log1] eqn:E1.
  - cbn zeta. rewrite request_sent.
    destruct (bodyOf _) as [ack|err] eqn:E2.
    + destruct (GetTask c (Task.ID task) _) as [r log2] eqn:E3.
      destruct (GetTask_reads _ _ _ _ _ E3) as (reads & -> & L & _).
      exists reads. rewrite <- app_assoc. cbn. split; [reflexivity|].
      split; [eapply Hreads, L|]. discriminate.
    + exists []. repeat split; [constructor|]. intros err' [= <-]. reflexivity.
  - split; [reflexivity|].
    destruct (GetTask_reads _ _ _ _ _ E1) as (reads & -> & L & _).
    exists reads. split; [reflexivity|]. eapply Hreads, L.
Qed.

(** ** The registry and the dispatcher *)

Section Contacts.

Variable c : Client.

Let any : Request -> Prop := fun _ => True.

Lemma contacts_request {A} method path body n (k : result string -> IO A) :
  (forall r, sends any n (k r)) -> contacts (bind (request c method path body) k).
Proof.
  intros Hk log. unfold bind. rewrite request_sent.
  destruct (Hk (bodyOf (http c (log ++ [sent c method path body])))
               (log ++ [sent c method path body])) as (added & E & _).
  exists (sent c method path body), added. rewrite E, <- app_assoc. reflexivity.
Qed.

Lemma contacts_bind {A B} n (m : IO A) (k : A -> IO B) :
  contacts m -> (forall a, sends any n (k a)) -> contacts (bind m k).
Proof.
  intros Hm Hk log. unfold bind. destruct (Hm log) as (req & rest & E).
  destruct (m log) as [a log1]. cbn in E. subst log1.
  destruct (Hk a (log ++ req :: rest)) as (added & E & _).
  exists req, (rest ++ added). rewrite E, <- app_assoc. reflexivity.
Qed.

Lemma contacts_decoded {A} (decode : string -> result A) method path body :
  contacts (let* r := request c method path body in
            match r with
            | Ok data => ret (decode data)
            | Err err => ret (Err err)
            end).
Proof. apply (contacts_request _ _ _ 0). intros [data|err]; apply sends_ret. Qed.

Lemma contacts_GetTask idOrTicket : contacts (GetTask c idOrTicket).
Proof.
  unfold GetTask. destruct (contains_byte "-" idOrTicket); [|apply contacts_decoded].
  apply (contacts_request _ _ _ 1).
  intros [data|err]; [destruct (UnmarshalTask data)|];
    try (apply sends_decoded; exact I).
  apply (sends_weaken _ 0); [lia|apply sends_ret].
Qed.

Lemma contacts_UpdateTask idOrTicket params : contacts (UpdateTask c idOrTicket params).
Proof.
  unfold UpdateTask. apply (contacts_bind 3); [apply contacts_GetTask|].
  intros [task|err]; [|apply sends_ret].
  apply (sends_bind _ 1 2); [apply sends_request; exact I|].
  intros [ack|err]; [apply sends_GetTask; intros; exact I|apply sends_ret].
Qed.

Lemma contacts_AddComment idOrTicket text : contacts (AddComment c idOrTicket text).
Proof.
  unfold AddComment. apply (contacts_bind 1); [apply contacts_GetTask|].
  intros [task|err]; [|apply sends_ret].
  apply (sends_bind _ 1 0); [apply sends_request; exact I|].
  intros [data|err]; [destruct (UnmarshalMap data)|]; apply sends_ret.
Qed.

Lemma contacts_ListTasks boardID status assignee :
  contacts (ListTasks c boardID status assignee).
Proof.
  intros log. rewrite ListTasks_request. cbn zeta. eexists _, []. reflexivity.
Qed.

Lemma contacts_returning {A} (wrap : A -> ToolValue) (m : IO (result A)) :
  contacts m -> contacts (returning wrap m).
Proof.
  intros Hm. unfold returning. apply (contacts_bind 0); [assumption|].
  intros [a|err]; apply sends_ret.
Qed.

Lemma contacts_not_refused {A} (m : IO A) a log : contacts m -> m log <> (a, log).
Proof.
  intros Hm E. destruct (Hm log) as (req & rest & E'). rewrite E in E'. cbn in E'.
  apply (f_equal (@length _)) in E'. rewrite length_app in E'. cbn in E'. lia.
Qed.

(** Errors of the client's methods come from the remote API. *)
Lemma remote_bodyOf o err : bodyOf o = Err err -> remoteError err.
Proof.
  unfold bodyOf. destruct o as [msg|status body]; [intros [= <-]; exact I|].
  destruct (400 <=? status)%Z; [|discriminate].
  intros [= <-]. cbn. eexists. reflexivity.
Qed.

Lemma remote_Unmarshal {T} target (store : json -> option T) data err :
  Unmarshal target store data = Err err -> remoteError err.
Proof.
  unfold Unmarshal. destruct (parse data) as [doc|]; [destruct (store doc)|];
    intros [= <-]; exact I.
Qed.

Lemma remote_taskOf o err : taskOf o = Err err -> remoteError err.
Proof.
  unfold taskOf. destruct (bodyOf o) as [data|err'] eqn:E.
  - apply remote_Unmarshal.
  - intros [= <-]. apply (remote_bodyOf _ _ E).
Qed.

Lemma remote_decoded {T} target (store : json -> option T) method path body :
  remote (let* r := request c method path body in
          match r with
          | Ok data => ret (Unmarshal target store data)
          | Err err => ret (Err err)
          end).
Proof.
  intros log err log'. unfold bind. rewrite request_sent.
  destruct (bodyOf _) as [data|err'] eqn:E; intros [= E' _].
  - apply (remote_Unmarshal _ _ _ _ E').
  - subst. apply (remote_bodyOf _ _ E).
Qed.

Lemma remote_GetTask idOrTicket : remote (GetTask c idOrTicket).
Proof.
  intros log err log' E. destruct (GetTask_reads _ _ _ _ _ E) as (_ & _ & _ & E').
  symmetry in E'. apply (remote_taskOf _ _ E').
Qed.

Lemma remote_UpdateTask idOrTicket params : remote (UpdateTask c idOrTicket params).
Proof.
  intros log err log' E. pose proof (UpdateTask_last c idOrTicket params log) as L.
  rewrite E in L. cbn in L. symmetry in L. apply (remote_taskOf _ _ L).
Qed.

Lemma remote_ListTasks boardID status assignee :
  remote (ListTasks c boardID status assignee).
Proof.
  intros log err log'. rewrite ListTasks_request. cbn zeta.
  destruct (bodyOf _) as [data|err'] eqn:E; intros [= E' _].
  - apply (remote_Unmarshal _ _ _ _ E').
  - subst. apply (remote_bodyOf _ _ E).
Qed.

Lemma remote_AddComment idOrTicket text : remote (AddComment c idOrTicket text).
Proof.
  intros log err log'. unfold AddComment, bind.
  destruct (GetTask c idOrTicket log) as [[task|err'] log1] eqn:E1.
  - rewrite request_sent. destruct (bodyOf _) as [data|err'] eqn:E2.
    + destruct (UnmarshalMap data). discriminate.
    + intros [= <- _]. apply (remote_bodyOf _ _ E2).
  - intros [= <- _]. apply (remote_GetTask _ _ _ _ E1).
Qed.

Lemma remote_returning {A} (wrap : A -> ToolValue) (m : IO (result A)) :
  remote m -> remote (returning wrap m).
Proof.
  intros Hm log err log'. unfold returning, bind.
  destruct (m log) as [[a|err'] log1] eqn:E; intros [= <- _].
  apply (Hm _ _ _ E).
Qed.

End Contacts.

Lemma present_text (args : Args) (key : string) :
  present args key <-> (assert_string (index args key)).1 <> "".
Proof.
  unfold present. destruct (index args key) as [| | |text| |]; cbn;
    try (split; [intros (text & E & _); discriminate E|congruence]).
  split; [intros (text' & [= <-] & Hne); exact Hne|eauto].
Qed.

Lemma assert_string_ok (v : value) :
  (assert_string v).2 = false -> (assert_string v).1 = "".
Proof. destruct v; cbn; congruence. Qed.

(** X8.  The dispatcher enforces the required names of the registry, no
    more and no less: a call of a registered tool is refused before anything
    is sent exactly when one of the names that the schema of the tool lists
    as required is missing, that is, not a string or the empty string. *)
Theorem required_arguments_are_enforced (s : Server) (name : string) (args : Args) :
  In name toolNames ->
  (refused s name args <-> exists key, In key (requiredOf name) /\ ~ present args key).
Proof.
  assert (Hnot : forall {A} (wrap : A -> ToolValue) (m : IO (result A)) tool,
            callTool s tool args = returning wrap m -> contacts m ->
            ~ refused s tool args).
  { intros A wrap m tool E Hm (msg & R). specialize (R []). rewrite E in R.
    exact (contacts_not_refused _ _ _ (contacts_returning wrap m Hm) R). }
  intros Hname. cbn in Hname.
  destruct Hname as [<-|[<-|[<-|[<-|[<-|[<-|[<-|[]]]]]]]].
  - split; [|intros (key & [] & _)]. intros R. exfalso. revert R.
    apply (Hnot _ Boards (ListBoards (client s))); [reflexivity|apply contacts_decoded].
  - split; [|intros (key & [] & _)]. intros R. exfalso. revert R.
    unfold refused, callTool. cbn [String.eqb Ascii.eqb Bool.eqb].
    destruct (assert_string _), (assert_string _), (assert_string _).
    intros (msg & R). specialize (R []).
    exact (contacts_not_refused _ _ _
             (contacts_returning Tasks _ (contacts_ListTasks _ _ _ _)) R).
  - pose proof (present_text args "id") as P.
    pose proof (assert_string_ok (index args "id")) as Hok.
    unfold refused, callTool. cbn [String.eqb Ascii.eqb Bool.eqb].
    destruct (assert_string (index args "id")) as [id ok]. cbn in P, Hok.
    destruct ok; cbn [negb orb].
    + destruct (String.eqb_spec id "") as [->|Hne].
      * split; [|intros _; exists "id is required"; reflexivity].
        intros _. exists "id". split; [cbn; auto|]. rewrite P. congruence.
      * split.
        -- intros (msg & R). specialize (R []). exfalso.
           exact (contacts_not_refused _ _ _
                    (contacts_returning TaskPtr _ (contacts_GetTask _ _)) R).
        -- intros (key & [<-|[]] & Hkey). rewrite P in Hkey. contradiction.
    + split; [|intros _; exists "id is required"; reflexivity].
      intros _. exists "id". split; [cbn; auto|]. rewrite P, Hok by reflexivity. congruence.
  - pose proof (present_text args "board_id") as Pb.
    pose proof (present_text args "title") as Pt.
    unfold refused, callTool. cbn [String.eqb Ascii.eqb Bool.eqb].
    destruct (assert_string (index args "board_id")) as [boardID okb].
    destruct (assert_string (index args "title")) as [title okt]. cbn in Pb, Pt.
    destruct (String.eqb_spec boardID "") as [->|Hb]; cbn [orb].
    + split; [|intros _; exists "board_id and title are required"; reflexivity].
      intros _. exists "board_id". split; [cbn; auto|]. rewrite Pb. congruence.
    + destruct (String.eqb_spec title "") as [->|Ht].
      * split; [|intros _; exists "board_id and title are required"; reflexivity].
        intros _. exists "title". split; [cbn; auto|]. rewrite Pt. congruence.
      * split.
        -- intros (msg & R). specialize (R []). exfalso.
           exact (contacts_not_refused _ _ _
                    (contacts_returning TaskPtr _ (contacts_decoded _ _ _ _ _)) R).
        -- intros (key & [<-|[<-|[]]] & Hkey);
             [rewrite Pb in Hkey|rewrite Pt in Hkey]; contradiction.
  - pose proof (present_text args "id") as P.
    unfold refused, callTool. cbn [String.eqb Ascii.eqb Bool.eqb].
    destruct (assert_string (index args "id")) as [id ok]. cbn in P.
    destruct (String.eqb_spec id "") as [->|Hne].
    + split; [|intros _; exists "id is required"; reflexivity].
      intros _. exists "id". split; [cbn; auto|]. rewrite P. congruence.
    + split.
      * intros (msg & R). specialize (R []). exfalso.
        exact (contacts_not_refused _ _ _
                 (contacts_returning TaskPtr _ (contacts_UpdateTask _ _ _)) R).
      * intros (key & [<-|[]] & Hkey). rewrite P in Hkey. contradiction.
  - pose proof (present_text args "task_id") as Pi.
    pose proof (present_text args "text") as Pt.
    unfold refused, callTool. cbn [String.eqb Ascii.eqb Bool.eqb].
    destruct (assert_string (index args "task_id")) as [taskID oki].
    destruct (assert_string (index args "text")) as [text okt]. cbn in Pi, Pt.
    destruct (String.eqb_spec taskID "") as [->|Hi]; cbn [orb].
    + split; [|intros _; exists "task_id and text are required"; reflexivity].
      intros _. exists "task_id". split; [cbn; auto|]. rewrite Pi. congruence.
    + destruct (String.eqb_spec text "") as [->|Ht].
      * split; [|intros _; exists "task_id and text are required"; reflexivity].
        intros _. exists "text". split; [cbn; auto|]. rewrite Pt. congruence.
      * split.
        -- intros (msg & R). specialize (R []). exfalso.
           exact (contacts_not_refused _ _ _
                    (contacts_returning Comment _ (contacts_AddComment _ _ _)) R).
        -- intros (key & [<-|[<-|[]]] & Hkey);
             [rewrite Pi in Hkey|rewrite Pt in Hkey]; contradiction.
  - split; [|intros (key & [] & _)]. intros R. exfalso. revert R.
    apply (Hnot _ Users (ListUsers (client s))); [reflexivity|apply contacts_decoded].
Qed.

Lemma required_arguments_are_enforced_witness :
  refused (NewServer Scenario.fallback) "add_comment"
    (Some (<["task_id" := VString "abc"]> ∅)).
Proof.
  apply (required_arguments_are_enforced (NewServer Scenario.fallback) "add_comment").
  - vm_compute. tauto.
  - exists "text". split; [vm_compute; tauto|].
    intros (text & E & _). vm_compute in E. discriminate E.
Defined.

(** The errors of a registered tool: one of the three messages of the
    validation, or an error that comes from the remote API. *)
Lemma callTool_errors (s : Server) name args log err log' :
  In name toolNames ->
  callTool s name args log = (Err err, log') ->
  In err [Errorf "id is required"; Errorf "board_id and title are required";
          Errorf "task_id and text are required"]
  \/ remoteError err.
Proof.
  intros Hname. cbn in Hname.
  destruct Hname as [<-|[<-|[<-|[<-|[<-|[<-|[<-|[]]]]]]]];
    unfold callTool; cbn [String.eqb Ascii.eqb Bool.eqb];
    repeat match goal with
    | |- context [assert_string ?v] => destruct (assert_string v) as [? ?]
    | |- context [if ?b then _ else _] => destruct b
    end;
    try (intros [= <- _]; left; cbn; tauto);
    intros E; right; revert E; apply remote_returning;
    first [ apply remote_GetTask | apply remote_UpdateTask | apply remote_AddComment
          | apply remote_ListTasks | apply remote_decoded ].
Qed.

(** X9.  The registry and the dispatcher know the same tools: a name is in
    the registry exactly when [callTool] never answers it with the error
    unknown tool. *)
Theorem registry_is_what_callTool_dispatches (s : Server) (name : string) :
  In name toolNames
  <-> forall args log,
        (callTool s name args log).1 <> Err (Errorf ("unknown tool: " +:+ name)).
Proof.
  split.
  - intros Hname args log E.
    destruct (callTool s name args log) as [r log'] eqn:Ecall. cbn in E. subst r.
    destruct (callTool_errors _ _ _ _ _ _ Hname Ecall) as [Hin|Hremote].
    + cbn in Hin. intuition discriminate.
    + cbn in Hremote. destruct Hremote as (rest & Hrest). discriminate Hrest.
  - intros Hnever. destruct (in_dec string_dec name toolNames) as [Hin|Hout]; [exact Hin|].
    exfalso. apply (Hnever None []).
    rewrite (callTool_unknown s name None Hout). reflexivity.
Qed.

(** ** The comment that comes back *)

Lemma lookup_insert_all (members : list (string * json)) (m : gmap string value) key :
  insert_all (map (fun kv => (kv.1, valueInterface kv.2)) members) m !! key
  = match lastValue key members with
    | Some v => Some (valueInterface v)
    | None => m !! key
    end.
Proof.
  revert m. induction members as [|[k v] members IH]; intros m; [reflexivity|].
  cbn [map lastValue]. unfold insert_all in *. cbn [fold_left fst snd]. rewrite IH.
  destruct (lastValue key members); [reflexivity|].
  destruct (String.eqb_spec k key) as [->|Hne].
  - apply lookup_insert_eq.
  - apply lookup_insert_ne, Hne.
Qed.

(** X10.  When the POST of a comment is answered with a status below 400 and
    a JSON object, [AddComment] returns that object as a map: a key has the
    value of the last member of the object with that key, and a key that the
    object does not have is not in the map. *)
Theorem AddComment_returns_the_object (c : Client) (idOrTicket text : string)
    (log : Log) (task : Task.t) (log1 : Log) (status : Z) (data : string)
    (members : list (string * json)) :
  GetTask c idOrTicket log = (Ok task, log1) ->
  let post := sent c "POST" ("/api/tasks/" +:+ Task.ID task +:+ "/comments")
                   (Some (JObject [("text", JText text)])) in
  http c (log1 ++ [post]) = Replied status data ->
  (status < 400)%Z ->
  parse data = Some (JObject members) ->
  exists m : gmap string value,
    AddComment c idOrTicket text log = (Ok (Some m), log1 ++ [post])
    /\ forall key, m !! key = valueInterface <$> lastValue key members.
Proof.
  intros E1 post E2 Hs Hparse.
  pose proof (AddComment_ignores_decode_error c idOrTicket text log task log1 status data
                E1 E2 Hs) as E.
  unfold UnmarshalMap in E. rewrite Hparse in E. cbn [fst] in E.
  eexists. split; [exact E|].
  intros key. rewrite lookup_insert_all, lookup_empty.
  destruct (lastValue key members); reflexivity.
Qed.

Lemma AddComment_returns_the_object_witness :
  exists m : gmap string value,
    AddComment Scenario2.commenting "abc" "hi" [] =
      (Ok (Some m),
       [sent Scenario2.commenting "GET" "/api/tasks/abc" None] ++
       [sent Scenario2.commenting "POST" "/api/tasks/abc/comments"
          (Some (JObject [("text", JString "hi")]))])
    /\ m !! "text" = Some (VString "hi!").
Proof.
  destruct (AddComment_returns_the_object Scenario2.commenting "abc" "hi" []
              (Task.mk "abc" "" "" "" "" "" 0 "" None)
              [sent Scenario2.commenting "GET" "/api/tasks/abc" None]
              201 (qq "{'_id':'c1','text':'hi','text':'hi!'}")
              [("_id", JString "c1"); ("text", JString "hi"); ("text", JString "hi!")])
    as (m & E & Hm).
  - vm_compute. reflexivity.
  - vm_compute. reflexivity.
  - reflexivity.
  - vm_compute. reflexivity.
  - exists m. split; [exact E|]. rewrite Hm. reflexivity.
Defined.

(** ** The bodies of the writes, read as tasks *)

Lemma fields_cons {T} (set : T -> string -> json -> option T) k v rest (z : T) :
  fields set ((k, v) :: rest) z
  = match set z (foldName k) v with
    | Some t => fields set rest t
    | None => None
    end.
Proof.
  unfold fields. cbn [fold_left fst snd]. cbn [mbind option_bind].
  destruct (set z (foldName k) v) as [t|]; [reflexivity|].
  induction rest as [|kv rest IH]; [reflexivity|exact IH].
Qed.

Lemma store_int_JInt (z old : Z) :
  (- 2 ^ 63 <= z < 2 ^ 63)%Z -> store_int (JInt z) old = Some z.
Proof.
  intros [Hlo Hhi]. apply Z.leb_le in Hlo. apply Z.ltb_lt in Hhi.
  unfold store_int, JInt. cbn [integral coefficient]. rewrite Hlo, Hhi. reflexivity.
Qed.

(** What [Task.set] does for the keys of the two bodies. *)
Lemma Task_set_string (t : Task.t) (beyond : list string) (text : string) :
  Task.set (t, beyond) (foldName "boardId") (JString text)
  = Some (Task.mk (Task.ID t) (Task.TicketNumber t) text (Task.Title t)
            (Task.Description t) (Task.Status t) (Task.Priority t) (Task.Assignee t)
            (Task.Tags t), beyond)
  /\ Task.set (t, beyond) (foldName "title") (JString text)
     = Some (Task.mk (Task.ID t) (Task.TicketNumber t) (Task.BoardID t) text
               (Task.Description t) (Task.Status t) (Task.Priority t) (Task.Assignee t)
               (Task.Tags t), beyond)
  /\ Task.set (t, beyond) (foldName "description") (JString text)
     = Some (Task.mk (Task.ID t) (Task.TicketNumber t) (Task.BoardID t) (Task.Title t)
               text (Task.Status t) (Task.Priority t) (Task.Assignee t) (Task.Tags t),
             beyond)
  /\ Task.set (t, beyond) (foldName "assignee") (JString text)
     = Some (Task.mk (Task.ID t) (Task.TicketNumber t) (Task.BoardID t) (Task.Title t)
               (Task.Description t) (Task.Status t) (Task.Priority t) text (Task.Tags t),
             beyond)
  /\ Task.set (t, beyond) (foldName "status") (JString text)
     = Some (Task.mk (Task.ID t) (Task.TicketNumber t) (Task.BoardID t) (Task.Title t)
               (Task.Description t) text (Task.Priority t) (Task.Assignee t) (Task.Tags t),
             beyond).
Proof. destruct t. repeat split; reflexivity. Qed.

Lemma Task_set_priority (t : Task.t) (beyond : list string) (z : Z) :
  (- 2 ^ 63 <= z < 2 ^ 63)%Z ->
  Task.set (t, beyond) (foldName "priority") (JInt z)
  = Some (Task.mk (Task.ID t) (Task.TicketNumber t) (Task.BoardID t) (Task.Title t)
            (Task.Description t) (Task.Status t) z (Task.Assignee t) (Task.Tags t),
          beyond).
Proof.
  intros Hz. destruct t as [id ticket board title description status priority assignee tags].
  change (foldName "priority") with "priority". unfold Task.set.
  cbn [String.eqb Ascii.eqb Bool.eqb]. rewrite (store_int_JInt z priority Hz). reflexivity.
Qed.

Ltac store_fields priority :=
  repeat (rewrite fields_cons; unfold JText;
          first [ rewrite (proj1 (Task_set_string _ _ _))
                | rewrite (proj1 (proj2 (Task_set_string _ _ _)))
                | rewrite (proj1 (proj2 (proj2 (Task_set_string _ _ _))))
                | rewrite (proj1 (proj2 (proj2 (proj2 (Task_set_string _ _ _)))))
                | rewrite (proj2 (proj2 (proj2 (proj2 (Task_set_string _ _ _)))))
                | priority ];
          cbn [Task.ID Task.TicketNumber Task.BoardID Task.Title Task.Description
               Task.Status Task.Priority Task.Assignee Task.Tags]).

(** X11.  The body that create_task sends names the fields as a [Task]
    does: decoded as a task it gives the board, the title, the description,
    the assignee, the status and the priority of the parameters, each text
    as [json.Marshal] writes it (with U+FFFD for a byte that is no part of
    well-formed UTF-8), and the zero value for what omitempty left out. *)
Theorem create_body_reads_as_task (p : CreateTaskParams) :
  (- 2 ^ 63 <= cPriority p < 2 ^ 63)%Z ->
  Task.decode (MarshalCreate p)
  = Some (Task.mk "" "" (coerce (cBoardID p)) (coerce (cTitle p))
            (coerce (cDescription p)) (coerce (cStatus p)) (cPriority p)
            (coerce (cAssignee p)) None).
Proof.
  intros Hz.
  destruct p as [board title description assignee status priority].
  cbn [cPriority] in Hz.
  unfold Task.decode, MarshalCreate, omitempty_string, omitempty_int, object.
  cbn [cBoardID cTitle cDescription cAssignee cStatus cPriority].
  destruct (String.eqb_spec description "") as [->|_],
           (String.eqb_spec assignee "") as [->|_],
           (String.eqb_spec status "") as [->|_],
           (Z.eqb_spec priority 0) as [->|_];
    cbn [app]; unfold Task.zero;
    store_fields ltac:(rewrite (Task_set_priority _ _ _ Hz)); reflexivity.
Qed.

Lemma create_body_reads_as_task_witness :
  Task.decode (MarshalCreate Scenario2.create)
  = Some (Task.mk "" "" "b1" "Write the report" "" "todo" 2 "julia@example.com" None).
Proof. apply (create_body_reads_as_task Scenario2.create). cbn. lia. Defined.

(** X12.  The body that update_task sends names the fields as a [Task]
    does: decoded over a task it changes the fields that the update supplies
    to the values supplied, each text as [json.Marshal] writes it, and leaves
    every other field as it was. *)
Theorem update_body_reads_as_task (t : Task.t) (beyond : list string)
    (p : UpdateTaskParams) :
  (forall priority, uPriority p = Some priority -> - 2 ^ 63 <= priority < 2 ^ 63)%Z ->
  object Task.set (t, beyond) (MarshalUpdate p) = Some (updated t p, beyond).
Proof.
  intros Hrange.
  destruct p as [ptitle pdescription passignee pstatus ppriority].
  cbn [uPriority] in Hrange. unfold MarshalUpdate, updated, object, omitempty_ptr.
  cbn [uTitle uDescription uAssignee uStatus uPriority].
  assert (Hz : forall n, ppriority = Some n -> (- 2 ^ 63 <= n < 2 ^ 63)%Z) by exact Hrange.
  destruct t as [id ticket board title description status priority assignee tags].
  destruct ptitle, pdescription, passignee, pstatus, ppriority as [n|];
    cbn [app default fmap option_fmap option_map];
    store_fields ltac:(rewrite (Task_set_priority _ _ _ (Hz _ eq_refl))); reflexivity.
Qed.

Lemma update_body_reads_as_task_witness :
  object Task.set (Task.mk "abc" "MNS-42" "b1" "Report" "" "todo" 3 "" None, [])
    (MarshalUpdate Scenario.completed)
  = Some (Task.mk "abc" "MNS-42" "b1" "Report" "" "completed" 3 "" None, []).
Proof.
  apply (update_body_reads_as_task
           (Task.mk "abc" "MNS-42" "b1" "Report" "" "todo" 3 "" None) [] Scenario.completed).
  intros priority E. discriminate E.
Defined.

(** ** The query of list_tasks *)

Lemma list_ascii_of_string_app (s1 s2 : string) :
  list_ascii_of_string (s1 +:+ s2) = list_ascii_of_string s1 ++ list_ascii_of_string s2.
Proof.
  induction s1 as [|a s1 IH]; [reflexivity|].
  change (String a s1 +:+ s2) with (String a (s1 +:+ s2)).
  cbn [list_ascii_of_string app]. f_equal. exact IH.
Qed.

Lemma occurrences_app (c : ascii) (s1 s2 : string) :
  occurrences c (s1 +:+ s2) = (occurrences c s1 + occurrences c s2)%nat.
Proof.
  unfold occurrences. rewrite list_ascii_of_string_app, List.filter_app, length_app.
  reflexivity.
Qed.

Lemma hex_digit_is_plain (z : Z) :
  (0 <= z < 16)%Z -> url.shouldEscape (url.hex_digit z) = false.
Proof.
  intros Hz.
  assert (z = 0 \/ z = 1 \/ z = 2 \/ z = 3 \/ z = 4 \/ z = 5 \/ z = 6 \/ z = 7 \/ z = 8
          \/ z = 9 \/ z = 10 \/ z = 11 \/ z = 12 \/ z = 13 \/ z = 14 \/ z = 15)%Z
    as Hcases by lia.
  repeat destruct Hcases as [->|Hcases]; try reflexivity. subst. reflexivity.
Qed.

Lemma byte_of_range (b : ascii) : (0 <= byte_of b < 256)%Z.
Proof. unfold byte_of. pose proof (N_ascii_bounded b). lia. Qed.

(** A byte that has to be escaped, other than the two that the escaping
    itself writes, is not in an escaped text. *)
Lemma escape_byte_has_no (c b : ascii) :
  url.shouldEscape c = true -> c <> "+"%char -> c <> "%"%char ->
  List.filter (Ascii.eqb c) (url.escape_byte b) = [].
Proof.
  intros Hc Hplus Hpercent.
  assert (Hne : forall x, url.shouldEscape x = false -> Ascii.eqb c x = false).
  { intros x Hx. destruct (Ascii.eqb_spec c x) as [->|]; congruence. }
  apply Ascii.eqb_neq in Hplus, Hpercent.
  pose proof (byte_of_range b) as Hb.
  unfold url.escape_byte.
  destruct (Ascii.eqb b " "); [cbn; rewrite Hplus; reflexivity|].
  destruct (url.shouldEscape b) eqn:Eb; cbn.
  - rewrite Hpercent, !Hne; [reflexivity| |];
      apply hex_digit_is_plain.
    + apply Z.mod_pos_bound. lia.
    + split; [apply Z.div_pos; lia|apply Z.div_lt_upper_bound; lia].
  - rewrite (Hne b Eb). reflexivity.
Qed.

Lemma QueryEscape_has_no (c : ascii) (s : string) :
  url.shouldEscape c = true -> c <> "+"%char -> c <> "%"%char ->
  occurrences c (url.QueryEscape s) = 0%nat.
Proof.
  intros Hc Hplus Hpercent. unfold occurrences, url.QueryEscape.
  rewrite list_ascii_of_string_of_list_ascii.
  induction (list_ascii_of_string s) as [|b l IH]; [reflexivity|].
  cbn [map concat]. rewrite List.filter_app, length_app, IH.
  rewrite escape_byte_has_no by assumption. reflexivity.
Qed.

(** X13.  [ListTasks] sends one GET whose path cannot be bent by the values
    of the filters: after /api/tasks it has one = for each filter that is not
    empty, one & between two of them and one ? before them if there is any,
    and neither a # nor a space, whatever bytes the values hold. *)
Theorem filters_cannot_break_the_query (c : Client) (boardID status assignee : string)
    (log : Log) :
  exists path,
    (ListTasks c boardID status assignee log).2 = log ++ [sent c "GET" path None]
    /\ let n := length (filters boardID status assignee) in
       occurrences "=" path = n
       /\ occurrences "&" path = (n - 1)%nat
       /\ occurrences "?" path = Nat.min 1 n
       /\ occurrences "#" path = 0%nat
       /\ occurrences " " path = 0%nat.
Proof.
  exists (tasksPath boardID status assignee).
  split; [rewrite ListTasks_request; reflexivity|].
  assert (Hno : forall v,
            occurrences "=" (url.QueryEscape v) = 0%nat
            /\ occurrences "&" (url.QueryEscape v) = 0%nat
            /\ occurrences "?" (url.QueryEscape v) = 0%nat
            /\ occurrences "#" (url.QueryEscape v) = 0%nat
            /\ occurrences " " (url.QueryEscape v) = 0%nat).
  { intros v. repeat split; apply QueryEscape_has_no; (reflexivity || discriminate). }
  pose proof (Hno boardID) as (B1 & B2 & B3 & B4 & B5).
  pose proof (Hno status) as (S1 & S2 & S3 & S4 & S5).
  pose proof (Hno assignee) as (A1 & A2 & A3 & A4 & A5).
  unfold tasksPath, filters.
  destruct (String.eqb boardID ""), (String.eqb status ""), (String.eqb assignee "");
    cbn [app length url.Encode];
    change (url.QueryEscape "assignee") with "assignee";
    change (url.QueryEscape "boardId") with "boardId";
    change (url.QueryEscape "status") with "status";
    cbn zeta; rewrite ?occurrences_app, ?B1, ?B2, ?B3, ?B4, ?B5, ?S1, ?S2, ?S3, ?S4, ?S5,
                      ?A1, ?A2, ?A3, ?A4, ?A5;
    repeat split; reflexivity.
Qed.

(** ** The client from the environment *)

Lemma string_of_list_ascii_app (l1 l2 : list ascii) :
  string_of_list_ascii (l1 ++ l2) = string_of_list_ascii l1 +:+ string_of_list_ascii l2.
Proof.
  induction l1 as [|a l1 IH]; [reflexivity|].
  cbn [app string_of_list_ascii]. rewrite IH. reflexivity.
Qed.

Lemma TrimSuffix_slash (s : string) :
  s = startup.TrimSuffix s "/" \/ s = startup.TrimSuffix s "/" +:+ "/".
Proof.
  unfold startup.TrimSuffix. cbn [list_ascii_of_string rev app startup.strip_prefix].
  destruct (rev (list_ascii_of_string s)) as [|x rest] eqn:E; [left; reflexivity|].
  destruct (Ascii.eqb_spec "/" x) as [<-|_]; [|left; reflexivity].
  right. apply (f_equal (@rev ascii)) in E. rewrite rev_involutive in E. cbn [rev] in E.
  rewrite <- (string_of_list_ascii_of_string s), E, string_of_list_ascii_app. reflexivity.
Qed.

Lemma NewClientFromEnv_settings (os : startup.OS) (transport : Log -> Outcome) :
  startup.NewClientFromEnv os transport =
    let url := setting os "TASKBOARD_URL" startup.Config.URL in
    let token := setting os "TASKBOARD_TOKEN" startup.Config.Token in
    if String.eqb url "" then Err (Errorf "TASKBOARD_URL not set (env or config)")
    else if String.eqb token "" then Err (Errorf "TASKBOARD_TOKEN not set (env or config)")
    else Ok {| baseURL := startup.TrimSuffix url "/"; token := token; http := transport |}.
Proof.
  unfold startup.NewClientFromEnv, setting.
  destruct (String.eqb (startup.Getenv os "TASKBOARD_URL") "") eqn:Eu;
    destruct (String.eqb (startup.Getenv os "TASKBOARD_TOKEN") "") eqn:Et;
    cbn [orb]; try destruct (startup.loadConfig os) as [cfg|err]; cbn zeta;
    rewrite ?Eu, ?Et; try reflexivity;
    apply String.eqb_eq in Eu || apply String.eqb_eq in Et;
    rewrite ?Eu, ?Et; reflexivity.
Qed.

(** X14.  [NewClientFromEnv] takes each of the two settings from the
    environment when the variable is set, and else from the configuration
    file when that file can be found, read and decoded; a file that cannot is
    passed over in silence.  It fails when a setting is empty after that, the
    URL first, and else gives the client with one slash taken from the end
    of the URL. *)
Theorem settings_from_env_then_config (os : startup.OS) (transport : Log -> Outcome) :
  startup.NewClientFromEnv os transport =
    let url := setting os "TASKBOARD_URL" startup.Config.URL in
    let token := setting os "TASKBOARD_TOKEN" startup.Config.Token in
    if String.eqb url "" then Err (Errorf "TASKBOARD_URL not set (env or config)")
    else if String.eqb token "" then Err (Errorf "TASKBOARD_TOKEN not set (env or config)")
    else Ok {| baseURL := startup.TrimSuffix url "/"; token := token; http := transport |}.
Proof.
  unfold startup.NewClientFromEnv, setting.
  destruct (String.eqb_spec (startup.Getenv os "TASKBOARD_URL") "") as [Eu|Nu];
    destruct (String.eqb_spec (startup.Getenv os "TASKBOARD_TOKEN") "") as [Et|Nt];
    cbn [orb]; try destruct (startup.loadConfig os) as [cfg|err]; cbn zeta;
    rewrite ?Eu, ?Et; cbn [String.eqb];
    repeat match goal with
    | N : ?x <> "" |- context [String.eqb ?x ""] =>
        rewrite (proj2 (String.eqb_neq x "") N)
    end; reflexivity.
Qed.

(** X15.  A client that [NewClientFromEnv] gives has a token that is not
    empty and the transport it was given; the URL it was configured with is
    not empty and is its base URL, or its base URL and one slash.  With that
    client the program is the transport loop. *)
Theorem client_from_env_is_configured `{Texts} (os : startup.OS)
    (transport : Log -> Outcome) (c : Client) :
  startup.NewClientFromEnv os transport = Ok c ->
  let url := setting os "TASKBOARD_URL" startup.Config.URL in
  token c = setting os "TASKBOARD_TOKEN" startup.Config.Token
  /\ token c <> ""
  /\ http c = transport
  /\ url <> ""
  /\ (url = baseURL c \/ url = baseURL c +:+ "/")
  /\ forall lines scanErr,
       startup.program os transport lines scanErr = main.main c lines scanErr.
Proof.
  intros E. pose proof E as E'. rewrite NewClientFromEnv_settings in E'. cbn zeta in E'.
  destruct (String.eqb_spec (setting os "TASKBOARD_URL" startup.Config.URL) "")
    as [|Hurl]; [discriminate|].
  destruct (String.eqb_spec (setting os "TASKBOARD_TOKEN" startup.Config.Token) "")
    as [|Htoken]; [discriminate|].
  injection E' as <-. cbn [token http baseURL].
  repeat split; try assumption.
  - apply TrimSuffix_slash.
  - intros lines scanErr. unfold startup.program. rewrite E. reflexivity.
Qed.

Lemma client_from_env_is_configured_witness :
  startup.NewClientFromEnv Scenario2.os (http Scenario.broken)
  = Ok {| baseURL := "https://board.example"; token := "s3cret";
          http := http Scenario.broken |}
  /\ "https://board.example/" = "https://board.example" +:+ "/".
Proof.
  assert (E : startup.NewClientFromEnv Scenario2.os (http Scenario.broken)
              = Ok {| baseURL := "https://board.example"; token := "s3cret";
                      http := http Scenario.broken |}) by (vm_compute; reflexivity).
  split; [exact E|].
  destruct (@client_from_env_is_configured Scenario.texts _ _ _ E)
    as (_ & _ & _ & _ & [Hu|Hu] & _).
  - vm_compute in Hu. discriminate Hu.
  - reflexivity.
Defined.

(** ** Writes of a tool call *)

Section Writes.

Variable c : Client.

Lemma lookups_read idOrTicket reads : lookups c idOrTicket reads -> Forall isRead reads.
Proof.
  unfold lookups. destruct (contains_byte "-" idOrTicket); [intros [->| ->]|intros ->];
    repeat constructor.
Qed.

Lemma writesOnce_reads {A} n (m : IO A) : sends isRead n m -> writesOnce c m.
Proof.
  intros Hm log. destruct (Hm log) as (added & E & _ & HQ).
  exists added, [], []. rewrite E, !app_nil_r.
  split; [reflexivity|]. split; [|split]; auto.
Qed.

Lemma writesOnce_returning {A} (wrap : A -> ToolValue) (m : IO (result A)) :
  writesOnce c m -> writesOnce c (returning wrap m).
Proof.
  intros Hm log. destruct (Hm log) as (reads1 & write & reads2 & E & H1 & H2 & Hw).
  exists reads1, write, reads2. split; [|auto].
  unfold returning, bind. destruct (m log) as [[a|err] log1]; exact E.
Qed.

Lemma writesOnce_CreateTask params : writesOnce c (CreateTask c params).
Proof.
  intros log. unfold CreateTask, bind. rewrite request_sent.
  exists [], [sent c "POST" "/api/tasks" (Some (MarshalCreate params))], [].
  split; [destruct (bodyOf _); reflexivity|].
  split; [constructor|split; [constructor|]]. right. eauto 6.
Qed.

Lemma writesOnce_UpdateTask idOrTicket params :
  writesOnce c (UpdateTask c idOrTicket params).
Proof.
  intros log. unfold UpdateTask, bind.
  destruct (GetTask c idOrTicket log) as [[task|err] log1] eqn:E1;
    destruct (GetTask_reads _ _ _ _ _ E1) as (reads1 & -> & L1 & _).
  - rewrite request_sent.
    destruct (bodyOf _) as [ack|err].
    + destruct (GetTask c (Task.ID task) _) as [r log2] eqn:E2.
      destruct (GetTask_reads _ _ _ _ _ E2) as (reads2 & -> & L2 & _).
      eexists reads1, [_], reads2. rewrite <- !app_assoc.
      split; [reflexivity|].
      split; [|split]; eauto using lookups_read. right. eauto 6.
    + eexists reads1, [_], []. rewrite <- !app_assoc.
      split; [reflexivity|].
      split; [|split]; eauto using lookups_read. right. eauto 6.
  - exists reads1, [], []. rewrite !app_nil_r.
    split; [reflexivity|]. split; [|split]; eauto using lookups_read.
Qed.

Lemma writesOnce_AddComment idOrTicket text : writesOnce c (AddComment c idOrTicket text).
Proof.
  intros log. unfold AddComment, bind.
  destruct (GetTask c idOrTicket log) as [[task|err] log1] eqn:E1;
    destruct (GetTask_reads _ _ _ _ _ E1) as (reads1 & -> & L1 & _).
  - rewrite request_sent.
    eexists reads1, [_], []. rewrite <- !app_assoc.
    split; [destruct (bodyOf _) as [data|err]; [destruct (UnmarshalMap data)|]; reflexivity|].
    split; [|split]; eauto using lookups_read. right. eauto 6.
  - exists reads1, [], []. rewrite !app_nil_r.
    split; [reflexivity|]. split; [|split]; eauto using lookups_read.
Qed.

End Writes.

(** X16.  A tool call writes at most once: what [callTool] adds to the log
    are GET requests without a body, with at most one request among them that
    has a body, a POST or a PUT.  No other method is ever used. *)
Theorem a_tool_call_writes_at_most_once (s : Server) (name : string) (args : Args)
    (log : Log) :
  exists reads1 write reads2,
    (callTool s name args log).2 = log ++ reads1 ++ write ++ reads2
    /\ Forall isRead reads1
    /\ Forall isRead reads2
    /\ (write = []
        \/ exists method path body,
             write = [sent (client s) method path (Some body)]
             /\ (method = "POST" \/ method = "PUT")).
Proof.
  assert (Hread : forall path, isRead (sent (client s) "GET" path None))
    by (intros path; split; reflexivity).
  revert log. change (writesOnce (client s) (callTool s name args)). unfold callTool.
  repeat match goal with
  | |- context [String.eqb name ?tool] => destruct (String.eqb name tool)
  | |- context [assert_string ?v] => destruct (assert_string v) as [? ?]
  | |- context [if ?b then _ else _] => destruct b
  end;
  try (apply (writesOnce_reads _ 0), sends_ret);
  apply writesOnce_returning;
  first [ apply writesOnce_CreateTask
        | apply writesOnce_UpdateTask
        | apply writesOnce_AddComment
        | apply (writesOnce_reads _ 1), sends_decoded, Hread
        | apply (writesOnce_reads _ 1), sends_ListTasks, Hread
        | apply (writesOnce_reads _ 2), sends_GetTask; intros; apply Hread ].
Qed.

(** ** Standard input *)

Lemma String_length_list (s : string) : String.length s = length (list_ascii_of_string s).
Proof. induction s as [|a s IH]; [reflexivity|]. cbn. f_equal. exact IH. Qed.

Lemma IndexByte_Some (data : list ascii) (c : ascii) (i : nat) :
  bufio.IndexByte data c = Some i ->
  data = take i data ++ c :: drop (S i) data
  /\ Forall (fun b => b <> c) (take i data)
  /\ (i < length data)%nat.
Proof.
  revert i. induction data as [|b data IH]; intros i; cbn [bufio.IndexByte]; [discriminate|].
  destruct (Ascii.eqb_spec b c) as [->|Hne].
  - intros [= <-]. cbn. repeat split; [constructor|lia].
  - destruct (bufio.IndexByte data c) as [j|]; [|discriminate].
    intros [= <-]. destruct (IH j eq_refl) as (E & Hno & Hlt).
    cbn [take drop app length]. repeat split.
    + f_equal. exact E.
    + constructor; assumption.
    + lia.
Qed.

Lemma IndexByte_None (data : list ascii) (c : ascii) :
  bufio.IndexByte data c = None -> Forall (fun b => b <> c) data.
Proof.
  induction data as [|b data IH]; cbn [bufio.IndexByte]; [constructor|].
  destruct (Ascii.eqb_spec b c) as [->|Hne]; [discriminate|].
  destruct (bufio.IndexByte data c); [discriminate|].
  intros _. constructor; auto.
Qed.

Lemma IndexByte_take (n : nat) (data : list ascii) (c : ascii) (i : nat) :
  bufio.IndexByte (take n data) c = Some i ->
  bufio.IndexByte data c = Some i /\ (i < n)%nat.
Proof.
  revert n i. induction data as [|b data IH]; intros [|n] i; cbn [take bufio.IndexByte];
    try discriminate.
  destruct (Ascii.eqb b c).
  - intros [= <-]. split; [reflexivity|lia].
  - destruct (bufio.IndexByte (take n data) c) as [j|] eqn:E; [|discriminate].
    intros [= <-]. destruct (IH n j E) as [-> Hlt]. split; [reflexivity|lia].
Qed.

(** The lines of an input that begins with a line. *)
Lemma rawLines_line (line rest : list ascii) :
  Forall (fun b => b <> "010"%char) line ->
  rawLines (line ++ "010"%char :: rest) = line :: rawLines rest.
Proof.
  induction 1 as [|b line Hb _ IH]; [reflexivity|].
  cbn [app rawLines]. apply Ascii.eqb_neq in Hb. rewrite Hb, IH. reflexivity.
Qed.

Lemma rawLines_last (line : list ascii) :
  Forall (fun b => b <> "010"%char) line -> line <> [] -> rawLines line = [line].
Proof.
  induction 1 as [|b line Hb Hline IH]; [congruence|]. intros _.
  cbn [rawLines]. apply Ascii.eqb_neq in Hb. rewrite Hb.
  destruct line as [|b' line]; [reflexivity|]. rewrite IH by discriminate. reflexivity.
Qed.

Lemma rawLines_begin (line rest : list ascii) :
  Forall (fun b => b <> "010"%char) line -> line <> [] ->
  exists more lines, rawLines (line ++ rest) = (line ++ more) :: lines.
Proof.
  induction 1 as [|b line Hb Hline IH]; [congruence|]. intros _.
  cbn [app rawLines]. apply Ascii.eqb_neq in Hb. rewrite Hb.
  destruct line as [|b' line].
  - cbn [app]. destruct (rawLines rest) as [|first lines]; [exists [], []|exists first, lines];
      reflexivity.
  - destruct IH as (more & lines & ->); [discriminate|]. exists more, lines. reflexivity.
Qed.

Lemma fits_length (line : list ascii) :
  fits (string_of_list_ascii line)
  = (length line <? Z.to_nat bufio.MaxScanTokenSize)%nat.
Proof.
  unfold fits. rewrite String_length_list, list_ascii_of_string_of_list_ascii.
  destruct (Nat.ltb_spec (length line) (Z.to_nat bufio.MaxScanTokenSize)),
           (Z.ltb_spec (Z.of_nat (length line)) bufio.MaxScanTokenSize);
    try reflexivity; unfold bufio.MaxScanTokenSize in *; lia.
Qed.

Lemma lineText_bytes (line : list ascii) :
  lineText (string_of_list_ascii line) = string_of_list_ascii (bufio.dropCR (rev line)).
Proof. unfold lineText. rewrite list_ascii_of_string_of_list_ascii. reflexivity. Qed.

(** What the scanner makes of an input: the lines before the first that does
    not fit its buffer, and the error when there is such a line. *)
Lemma scanning_delivers (fuel : nat) (input : list ascii) (readErr : option string) :
  (length input < fuel)%nat ->
  bufio.scanning fuel (Z.to_nat bufio.MaxScanTokenSize) input readErr
  = (map lineText (delivered (map string_of_list_ascii (rawLines input))),
     if forallb fits (map string_of_list_ascii (rawLines input)) then readErr
     else Some bufio.ErrTooLong).
Proof.
  pose proof fits_length as Hfits.
  assert (Hmax : (0 < Z.to_nat bufio.MaxScanTokenSize)%nat)
    by (unfold bufio.MaxScanTokenSize; lia).
  remember (Z.to_nat bufio.MaxScanTokenSize) as maxTokenSize eqn:Emax. clear Emax.
  assert (Htoken : forall fuel input i,
    (forall input', (length input' < fuel)%nat ->
       bufio.scanning fuel maxTokenSize input' readErr
       = (map lineText (delivered (map string_of_list_ascii (rawLines input'))),
          if forallb fits (map string_of_list_ascii (rawLines input')) then readErr
          else Some bufio.ErrTooLong)) ->
    (length input < S fuel)%nat ->
    bufio.IndexByte (take maxTokenSize input) "010" = Some i ->
    (let '(tokens, err) := bufio.scanning fuel maxTokenSize (drop (S i) input) readErr in
     (string_of_list_ascii (bufio.dropCR (rev (take i (take maxTokenSize input)))) :: tokens,
      err))
    = (map lineText (delivered (map string_of_list_ascii (rawLines input))),
       if forallb fits (map string_of_list_ascii (rawLines input)) then readErr
       else Some bufio.ErrTooLong)).
  { clear fuel input. intros fuel input i IH Hlen Ei.
    destruct (IndexByte_take _ _ _ _ Ei) as [Ei' Hi].
    destruct (IndexByte_Some _ _ _ Ei') as (E & Hno & Hlt).
    rewrite take_take, Nat.min_l by lia.
    assert (Hl : length (take i input) = i) by (rewrite length_take; lia).
    set (line := take i input) in *. set (rest := drop (S i) input) in *.
    clearbody line rest. subst input.
    rewrite IH by (rewrite length_app in Hlen; cbn [length] in Hlen; lia).
    rewrite rawLines_line by exact Hno.
    cbn [map delivered forallb]. rewrite Hfits, Hl.
    apply Nat.ltb_lt in Hi. rewrite Hi. cbn [map andb]. rewrite lineText_bytes.
    reflexivity. }
  revert input. induction fuel as [|fuel IH]; intros input Hlen; [lia|].
  cbn [bufio.scanning]. unfold bufio.splitLines.
  destruct (Nat.ltb_spec (length input) maxTokenSize) as [Hlt|Hge]; cbn [andb].
  - rewrite take_ge by lia.
    destruct input as [|b input]; [reflexivity|].
    cbn [length Nat.eqb].
    destruct (bufio.IndexByte (b :: input) "010") as [i|] eqn:Ei.
    + assert (Hall : take maxTokenSize (b :: input) = b :: input) by (apply take_ge; lia).
      rewrite <- Hall in Ei. rewrite <- (Htoken fuel (b :: input) i IH Hlen Ei).
      rewrite Hall. reflexivity.
    + apply IndexByte_None in Ei.
      change (drop (S (length input)) (b :: input)) with (drop (length input) input).
      rewrite drop_all, IH by (cbn [length] in *; lia).
      rewrite (rawLines_last (b :: input)) by (assumption || discriminate).
      cbn [rawLines map delivered forallb]. rewrite Hfits.
      apply Nat.ltb_lt in Hlt. rewrite Hlt.
      cbn [map andb]. rewrite lineText_bytes. reflexivity.
  - destruct (bufio.IndexByte (take maxTokenSize input) "010") as [i|] eqn:Ei.
    + exact (Htoken fuel input i IH Hlen Ei).
    + apply IndexByte_None in Ei.
      destruct (rawLines_begin (take maxTokenSize input) (drop maxTokenSize input) Ei)
        as (more & lines & E).
      { intros E. apply (f_equal length) in E. rewrite length_take in E. cbn in E. lia. }
      rewrite take_drop in E. rewrite E. cbn [map delivered forallb]. rewrite Hfits.
      assert (Hlong : (length (take maxTokenSize input ++ more) <? maxTokenSize)%nat = false).
      { apply Nat.ltb_ge. rewrite length_app, length_take. lia. }
      rewrite Hlong. reflexivity.
Qed.

Lemma Scan_delivers (input : string) (readErr : option string) :
  bufio.Scan input readErr
  = (map lineText (delivered (linesOf input)),
     if forallb fits (linesOf input) then readErr else Some bufio.ErrTooLong).
Proof.
  unfold bufio.Scan, linesOf. apply scanning_delivers. rewrite String_length_list. lia.
Qed.

Lemma oneLine_bytes (line : string) :
  oneLine line = true -> Forall (fun b => b <> "010"%char) (list_ascii_of_string line).
Proof.
  unfold oneLine, contains_byte. intros E. apply negb_true_iff in E.
  induction (list_ascii_of_string line) as [|b l IH]; [constructor|].
  cbn [existsb] in E. apply orb_false_iff in E as [Hb Hl].
  constructor; [|exact (IH Hl)].
  intros ->. rewrite Ascii.eqb_refl in Hb. discriminate Hb.
Qed.

Lemma append_assoc (s1 s2 s3 : string) : (s1 +:+ s2) +:+ s3 = s1 +:+ s2 +:+ s3.
Proof.
  induction s1 as [|a s1 IH]; [reflexivity|].
  change (String a s1 +:+ s2) with (String a (s1 +:+ s2)).
  change (String a (s1 +:+ s2) +:+ s3) with (String a ((s1 +:+ s2) +:+ s3)).
  rewrite IH. reflexivity.
Qed.

Lemma linesOf_line (line rest : string) :
  oneLine line = true -> linesOf (line +:+ newline +:+ rest) = line :: linesOf rest.
Proof.
  intros Hline. unfold linesOf. rewrite list_ascii_of_string_app.
  change (newline +:+ rest) with (String "010" rest). cbn [list_ascii_of_string].
  rewrite rawLines_line by exact (oneLine_bytes line Hline).
  cbn [map]. rewrite string_of_list_ascii_of_string. reflexivity.
Qed.

(** A line that fits the buffer is the next token. *)
Lemma Scan_line (line rest : string) (readErr : option string) :
  oneLine line = true -> fits line = true ->
  bufio.Scan (line +:+ newline +:+ rest) readErr
  = let '(lines, err) := bufio.Scan rest readErr in (lineText line :: lines, err).
Proof.
  intros Hline Hfits. rewrite !Scan_delivers, linesOf_line by exact Hline.
  cbn [delivered forallb map]. rewrite Hfits. reflexivity.
Qed.

Lemma Scan_lines (before : list string) (rest : string) (readErr : option string) :
  Forall (fun line => oneLine line = true /\ fits line = true) before ->
  bufio.Scan (unlines before +:+ rest) readErr
  = let '(lines, err) := bufio.Scan rest readErr in (map lineText before ++ lines, err).
Proof.
  induction 1 as [|line before [Hline Hfits] _ IH]; cbn [unlines map app].
  - change ("" +:+ rest) with rest. destruct (bufio.Scan rest readErr). reflexivity.
  - rewrite !append_assoc, Scan_line, IH by assumption.
    destruct (bufio.Scan rest readErr). reflexivity.
Qed.

(** A line that does not fit the buffer ends the scan. *)
Lemma Scan_long (line rest : string) (readErr : option string) :
  oneLine line = true -> fits line = false ->
  bufio.Scan (line +:+ rest) readErr = ([], Some bufio.ErrTooLong).
Proof.
  intros Hline Hfits. rewrite Scan_delivers. unfold linesOf.
  rewrite list_ascii_of_string_app.
  rewrite <- (string_of_list_ascii_of_string line), fits_length in Hfits.
  apply Nat.ltb_ge in Hfits.
  destruct (rawLines_begin (list_ascii_of_string line) (list_ascii_of_string rest)
              (oneLine_bytes line Hline)) as (more & lines & ->).
  { intros E. rewrite E in Hfits. cbn [length] in Hfits.
    unfold bufio.MaxScanTokenSize in Hfits. lia. }
  cbn [map delivered forallb]. rewrite fits_length, length_app.
  assert (E : (length (list_ascii_of_string line) + length more
               <? Z.to_nat bufio.MaxScanTokenSize)%nat = false)
    by (apply Nat.ltb_ge; lia).
  rewrite E. reflexivity.
Qed.

(** What is left after the last line feed is the last token. *)
Lemma Scan_last (line : string) (readErr : option string) :
  oneLine line = true -> fits line = true -> line <> "" ->
  bufio.Scan line readErr = ([lineText line], readErr).
Proof.
  intros Hline Hfits Hne. rewrite Scan_delivers. unfold linesOf.
  rewrite rawLines_last; [|exact (oneLine_bytes line Hline)|].
  - cbn [map delivered forallb]. rewrite string_of_list_ascii_of_string, Hfits. reflexivity.
  - intros E. apply Hne. rewrite <- (string_of_list_ascii_of_string line), E. reflexivity.
Qed.

(** The tokens of an input whose lines all fit are those of [bufio.ScanLines]. *)
Lemma scan_rawLines (current input : list ascii) :
  Forall (fun b => b <> "010"%char) current ->
  bufio.scan current input
  = map (fun line => string_of_list_ascii (bufio.dropCR (rev line)))
        (rawLines (rev current ++ input)).
Proof.
  revert current. induction input as [|b input IH]; intros current Hcurrent.
  - rewrite app_nil_r. cbn [bufio.scan]. destruct current as [|c current]; [reflexivity|].
    rewrite rawLines_last.
    + cbn [map]. rewrite rev_involutive. reflexivity.
    + apply Forall_rev. exact Hcurrent.
    + intros E. apply (f_equal (@length ascii)) in E. rewrite length_rev in E. discriminate E.
  - cbn [bufio.scan]. destruct (Ascii.eqb_spec b "010") as [->|Hb].
    + rewrite rawLines_line by (apply Forall_rev; exact Hcurrent).
      cbn [map]. rewrite rev_involutive. rewrite (IH []) by constructor. reflexivity.
    + rewrite (IH (b :: current)) by (constructor; assumption).
      cbn [rev]. rewrite <- app_assoc. reflexivity.
Qed.

Lemma ScanLines_linesOf (input : string) :
  bufio.ScanLines input = map lineText (linesOf input).
Proof.
  unfold bufio.ScanLines, linesOf. rewrite scan_rawLines by constructor.
  cbn [rev app]. rewrite map_map. apply map_ext. intros line.
  rewrite lineText_bytes. reflexivity.
Qed.

Lemma delivered_all (lines : list string) :
  forallb fits lines = true -> delivered lines = lines.
Proof.
  induction lines as [|line lines IH]; [reflexivity|].
  cbn [forallb delivered]. intros E. apply andb_true_iff in E as [-> E].
  rewrite (IH E). reflexivity.
Qed.

Section StandardInput.

Context `{Texts}.
Variable client : Client.

Lemma main_app lines1 lines2 scanErr log :
  main.main client (lines1 ++ lines2) scanErr log
  = let '(out1, log1) := loop (NewServer client) lines1 log in
    let '(out2, exit, log2) := main.main client lines2 scanErr log1 in
    (out1 ++ out2, exit, log2).
Proof.
  unfold main.main, bind. rewrite loop_app.
  destruct (loop (NewServer client) lines1 log) as [out1 log1].
  destruct (loop (NewServer client) lines2 log1) as [out2 log2].
  destruct scanErr; reflexivity.
Qed.

Lemma main_refuses line lines scanErr log :
  parse line = None ->
  main.main client (line :: lines) scanErr log
  = let '(out, exit, log') := main.main client lines scanErr log in
    (parseError line :: out, exit, log').
Proof.
  intros Hline. unfold main.main, bind. rewrite loop_cons.
  rewrite (serve_refused _ _ _ _ (Unmarshal_invalid _ _ _ Hline)).
  destruct (loop (NewServer client) lines log) as [out log'].
  destruct scanErr; reflexivity.
Qed.

End StandardInput.

(** C4.  A line of standard input that is not valid JSON and that fits the
    buffer of the scanner (it has fewer than 65536 bytes) is answered by the
    JSON-RPC error -32700 with a null id, no request goes to the remote API
    for it, and what follows it on the input is served as if the input began
    there.  The same holds of such a line at the end of the input without a
    line feed.  A line of 65536 bytes or more is not answered, and nothing
    after it is read: the scanner gives up, and the process ends with a
    fatal error after the responses to the lines before it. *)
Theorem parse_error_is_not_fatal `{Texts} (client : Client) (before : list string)
    (line after : string) (readErr : option string) (log : Log) :
  Forall (fun l => oneLine l = true /\ fits l = true) before ->
  oneLine line = true ->
  let '(out1, log1) := loop (NewServer client) (map lineText before) log in
  (fits line = true -> parse (lineText line) = None ->
   main.stdio client (unlines before +:+ line +:+ newline +:+ after) readErr log
   = let '(out2, exit, log2) := main.stdio client after readErr log1 in
     (out1 ++ parseError (lineText line) :: out2, exit, log2))
  /\ (fits line = true -> parse (lineText line) = None -> line <> "" ->
      main.stdio client (unlines before +:+ line) readErr log
      = (out1 ++ [parseError (lineText line)],
         match readErr with
         | Some err => Fatal ("Error reading stdin: " +:+ err)
         | None => Clean
         end,
         log1))
  /\ (fits line = false ->
      main.stdio client (unlines before +:+ line +:+ after) readErr log
      = (out1, Fatal ("Error reading stdin: " +:+ bufio.ErrTooLong), log1)).
Proof.
  intros Hbefore Hline.
  destruct (loop (NewServer client) (map lineText before) log) as [out1 log1] eqn:E1.
  split; [|split].
  - intros Hfits Hparse. unfold main.stdio.
    rewrite Scan_lines, Scan_line by assumption.
    destruct (bufio.Scan after readErr) as [lines err].
    rewrite main_app, E1, main_refuses by exact Hparse.
    destruct (main.main client lines err log1) as [[out2 exit] log2]. reflexivity.
  - intros Hfits Hparse Hne. unfold main.stdio.
    rewrite Scan_lines, Scan_last by assumption.
    rewrite main_app, E1, main_refuses by exact Hparse.
    unfold main.main, bind. cbn [loop]. rewrite app_nil_r || idtac.
    destruct readErr; reflexivity.
  - intros Hfits. unfold main.stdio.
    rewrite Scan_lines, Scan_long by assumption.
    rewrite main_app, E1. unfold main.main, bind. cbn [loop]. unfold ret.
    rewrite app_nil_r. reflexivity.
Qed.

Lemma parse_error_is_not_fatal_witness :
  (@main.stdio Scenario.texts Scenario.fallback
     (unlines [Scenario.call_tools_list] +:+ "not json" +:+ newline
      +:+ Scenario.call_unknown +:+ newline) None []).1
  = ([Response.mk "2.0" (Request.ID (Scenario.decoded Scenario.call_tools_list))
        (Some (OfToolsList registerTools)) None;
      Response.mk "2.0" VNil None
        (Some (Error.mk (-32700) "Parse error" "json: cannot read Request"));
      toolError (Request.ID (Scenario.decoded Scenario.call_unknown))
        "Error: unknown tool: nope"],
     Clean).
Proof.
  pose proof (@parse_error_is_not_fatal Scenario.texts Scenario.fallback
                [Scenario.call_tools_list] "not json"
                (Scenario.call_unknown +:+ newline) None []) as Hserved.
  destruct (loop _ _ _) as [out1 log1] eqn:E1 in Hserved.
  destruct Hserved as [Hserved _].
  - repeat constructor.
  - reflexivity.
  - rewrite Hserved by (vm_compute; reflexivity).
    vm_compute in E1. injection E1 as <- <-. vm_compute. reflexivity.
Defined.

(** C4, as stated, fails: a line of 65536 bytes that is not valid JSON does
    not fit the buffer of the scanner.  No response is printed for it, the
    request on the line after it is never served, and the process ends with
    a fatal error. *)
Lemma a_long_line_ends_the_process :
  oneLine Scenario2.long_line = true
  /\ parse Scenario2.long_line = None
  /\ @main.stdio Scenario.texts Scenario.fallback
       (Scenario2.long_line +:+ newline +:+ Scenario.call_tools_list +:+ newline) None []
     = ([], Fatal "Error reading stdin: bufio.Scanner: token too long", []).
Proof. split; [|split]; vm_compute; reflexivity. Qed.

(** X4.  The loop serves the lines of standard input up to the first line
    that does not fit the buffer of the scanner, all of them when every line
    fits, and prints one response for each line served, in the order of the
    lines: for a line that decodes to a request the response carries the id
    of that request, and for a line that does not it is the JSON-RPC error
    -32700 with a nil id.  The process ends with a fatal error when a line
    does not fit or the input ends with an error, and else ends well. *)
Theorem one_response_per_line `{Texts} (client : Client) (stdin : string)
    (readErr : option string) (log : Log) :
  let served := map lineText (delivered (linesOf stdin)) in
  let scanErr := if forallb fits (linesOf stdin) then readErr else Some bufio.ErrTooLong in
  let '(printed, exit, _) := main.stdio client stdin readErr log in
  Forall2
    (fun line resp =>
       Response.JSONRPC resp = "2.0"
       /\ match UnmarshalRequest line with
          | Ok req => Response.ID resp = Request.ID req
          | Err err =>
              resp = Response.mk "2.0" VNil None
                       (Some (Error.mk (-32700) "Parse error" (ErrorText err)))
          end)
    served printed
  /\ exit = match scanErr with
            | Some err => Fatal ("Error reading stdin: " +:+ err)
            | None => Clean
            end
  /\ (forallb fits (linesOf stdin) = true -> served = bufio.ScanLines stdin).
Proof.
  intros served scanErr. unfold main.stdio. rewrite Scan_delivers.
  fold served scanErr. unfold main.main, bind.
  pose proof (loop_answers (NewServer client) served log) as Hloop.
  destruct (loop (NewServer client) served log) as [printed log'].
  assert (Hall : forallb fits (linesOf stdin) = true -> served = bufio.ScanLines stdin).
  { intros E. unfold served. rewrite (delivered_all _ E), ScanLines_linesOf. reflexivity. }
  destruct scanErr; (split; [exact Hloop|split; [reflexivity|exact Hall]]).
Qed.
